(** * TempMail agent: email-to-Telegram relay (src/server.ts)

    A shallow embedding of [TempMailAgent] (onEmail, generateEmailSummary,
    escapeHtml, sendTelegramMessage, sendTelegramDocument) and of the
    worker's webhook handler, followed by the properties of the
    specification that concern them.

    Conventions of the embedding.
    - A JavaScript string is a [string]: a sequence of code units, one
      [ascii] each, so the embedding covers the code units below 256
      (ASCII and Latin-1), where [length], [substring], [trim],
      [toLowerCase] and the regular expressions act unit by unit.  The
      pictographs of the message templates are decoration and stand in the
      literals as the bytes of their UTF-8 encoding; no template passes
      through [trim] or [toLowerCase].
    - An [async] method is a computation over the trace of the calls made
      so far: it extends the trace and either returns or throws.  The
      Telegram API and the AI binding are the environment, a [World] that
      answers each call from the history and the call itself.
    - A [fetch] issues its call and gives a promise; [await] on it waits
      for the call to settle: fulfilled with a response, or rejected.  The
      read of a response body is fulfilled or rejected too; the AI call
      resolves or rejects.  A throw that no [try] catches ends the method
      that runs.  A call of one of the agent's own [async] methods is
      always awaited in the source and is embedded as such.
    - The MIME parse of the raw email is an input of onEmail.  The webhook
      handler receives what [request.json()] gives: any JSON value, or
      nothing when the body does not parse; it reads that value as
      JavaScript does, without checking it against [TelegramUpdate].
    - A number read from JSON is a safe integer (magnitude below 2^53),
      held exactly, or another number, given with the text JavaScript
      prints for it.  Counts and sizes the code prints (attachments,
      bytes, HTTP status) are integers far below 2^53 in the platform.
    - The worker's [email] entry point only hands the message to the
      agents runtime and is not embedded. *)

From Stdlib Require Import String Ascii List ZArith Lia Bool Arith.
From Stdlib Require Import DecimalString.
From Stdlib Require DecimalPos DecimalZ.
Import ListNotations.
Open Scope string_scope.

(** ** JavaScript string primitives *)

Module Js.

(** Code unit 34, the double quote. *)
Definition dquote : ascii := ascii_of_nat 34.

(** [String.prototype.toLowerCase] on one code unit below 256: A-Z, and
    the Latin-1 capitals U+00C0..U+00DE except the multiplication sign
    U+00D7, move up by 32; every other unit is its own lower case. *)
Definition lower_unit (c : ascii) : ascii :=
  let n := nat_of_ascii c in
  if (((65 <=? n) && (n <=? 90)) ||
      ((192 <=? n) && (n <=? 222) && negb (n =? 215)))%nat
  then ascii_of_nat (n + 32)
  else c.

Fixpoint toLowerCase (s : string) : string :=
  match s with
  | EmptyString => EmptyString
  | String c r => String (lower_unit c) (toLowerCase r)
  end.

(** White space and line terminators stripped by [trim], below 256:
    TAB, LF, VT, FF, CR, SP and NBSP. *)
Definition is_space (c : ascii) : bool :=
  let n := nat_of_ascii c in
  (((9 <=? n) && (n <=? 13)) || (n =? 32) || (n =? 160))%nat.

Fixpoint trimStart (s : string) : string :=
  match s with
  | EmptyString => EmptyString
  | String c r => if is_space c then trimStart r else s
  end.

Fixpoint trimEnd (s : string) : string :=
  match s with
  | EmptyString => EmptyString
  | String c r =>
      match trimEnd r with
      | EmptyString => if is_space c then EmptyString else String c EmptyString
      | r' => String c r'
      end
  end.

Definition trim (s : string) : string := trimEnd (trimStart s).

(** [s.substring(0, n)]: the first [n] code units, all of [s] when it is
    shorter. *)
Definition substring0 (n : nat) (s : string) : string := substring 0 n s.

(** [s.startsWith(p)]. *)
Definition startsWith (s p : string) : bool := prefix p s.

(** [s.replace(/c/g, by)] for a one-character pattern [c] and a
    replacement text free of [$]: every occurrence of [c], left to right,
    becomes [by]; the inserted text is not scanned again. *)
Fixpoint replace_all (c : ascii) (by_ : string) (s : string) : string :=
  match s with
  | EmptyString => EmptyString
  | String x r =>
      if Ascii.eqb x c then by_ ++ replace_all c by_ r
      else String x (replace_all c by_ r)
  end.

(** [s.replace(/<[^>]*>?/gm, '')]: a match opens at each [<] outside a
    match, runs greedily over everything that is not [>] (line breaks
    included) and takes the closing [>] when there is one; all matches are
    deleted.  [inside] tells whether the scan is within a match. *)
Fixpoint strip_markup (inside : bool) (s : string) : string :=
  match s with
  | EmptyString => EmptyString
  | String c r =>
      if inside then
        if Ascii.eqb c ">" then strip_markup false r else strip_markup true r
      else
        if Ascii.eqb c "<" then strip_markup true r
        else String c (strip_markup false r)
  end.

(** Truthiness of an optional string: [undefined] and the empty string are
    falsy. *)
Definition truthy (o : option string) : bool :=
  match o with
  | Some (String _ _) => true
  | _ => false
  end.

(** A number read from JSON: a safe integer, held exactly, or any other
    number (a fraction, an integer from 2^53 on, an overflow), given with
    the text [Number.prototype.toString] prints for it.  No number read
    from JSON is NaN, and zero is the safe integer 0. *)
Inductive number : Type :=
| SafeInt (z : Z)
| OtherNumber (printed : string).

(** [Number.isSafeInteger] on an integer. *)
Definition isSafeInteger (z : Z) : bool := (Z.abs z <? 2 ^ 53)%Z.

(** The decimal numeral of an integer, as a template literal renders a
    number that is a safe integer. *)
Definition number_toString (z : Z) : string := NilZero.string_of_int (Z.to_int z).

(** The text a template literal gives a number. *)
Definition number_text (n : number) : string :=
  match n with
  | SafeInt z => number_toString z
  | OtherNumber printed => printed
  end.

(** [(bytes / 1024).toFixed(2)]: the quotient is exact in binary floating
    point, and [toFixed] picks the integer [n] with [n / 100] nearest to
    it, the larger one on a tie: [n = floor ((25 * bytes + 128) / 256)]. *)
Definition kilobytes_toFixed2 (bytes : N) : string :=
  let n := Z.of_N ((25 * bytes + 128) / 256)%N in
  let frac := (n mod 100)%Z in
  number_toString (n / 100)%Z ++ "." ++
  (if (frac <? 10)%Z then "0" else "") ++ number_toString frac.

(** The [type] a [File] keeps of the one it is given: the empty string
    when a code unit lies outside U+0020..U+007E, and the given type with
    A-Z in lower case otherwise. *)
Definition is_printable_unit (c : ascii) : bool :=
  let n := nat_of_ascii c in ((32 <=? n) && (n <=? 126))%nat.

Definition ascii_lower_unit (c : ascii) : ascii :=
  let n := nat_of_ascii c in
  if ((65 <=? n) && (n <=? 90))%nat then ascii_of_nat (n + 32) else c.

Fixpoint every_unit (p : ascii -> bool) (s : string) : bool :=
  match s with
  | EmptyString => true
  | String c r => p c && every_unit p r
  end.

Fixpoint map_units (f : ascii -> ascii) (s : string) : string :=
  match s with
  | EmptyString => EmptyString
  | String c r => String (f c) (map_units f r)
  end.

Definition file_type_of (type : string) : string :=
  if every_unit is_printable_unit type then map_units ascii_lower_unit type
  else EmptyString.

End Js.

(** ** Recipient resolver: the regular expression [/\+(.+)@/] *)

Module Resolver.

(** A line terminator below 256 (LF, CR): the only units [.] refuses. *)
Definition is_line_terminator (c : ascii) : bool :=
  Ascii.eqb c (ascii_of_nat 10) || Ascii.eqb c (ascii_of_nat 13).

(** [(.+)@] tried on the text that follows a [+].  The first unit must be
    matched by [.]; the quantifier is greedy, so a match that takes more
    units is preferred, and stopping here (the next unit being [@]) is the
    fallback the backtracking reaches last. *)
Fixpoint capture_to_at (s : string) : option string :=
  match s with
  | EmptyString => None
  | String c r =>
      if is_line_terminator c then None
      else match capture_to_at r with
           | Some tok => Some (String c tok)
           | None =>
               match r with
               | String "@" _ => Some (String c EmptyString)
               | _ => None
               end
           end
  end.

(** [s.match(/\+(.+)@/)]: the leftmost [+] from which the rest of the
    pattern matches; the result is capture group 1, [None] for [null]. *)
Fixpoint match_plus_at (s : string) : option string :=
  match s with
  | EmptyString => None
  | String c r =>
      if Ascii.eqb c "+" then
        match capture_to_at r with
        | Some tok => Some tok
        | None => match_plus_at r
        end
      else match_plus_at r
  end.

(** Lines 40-49 of onEmail: the address is lowercased, then matched;
    [None] is the no-route outcome. *)
Definition chatId_of (to : string) : option string :=
  match_plus_at (Js.toLowerCase to).

End Resolver.

(** ** The environment: HTTP calls, the AI binding, the console *)

Module Runtime.

Local Open Scope list_scope.

(** A JSON value: what [JSON.parse] gives and [JSON.stringify] takes.
    An object lists its own properties. *)
#[local] Unset Elimination Schemes.
Inductive json : Type :=
| JNull
| JBool (b : bool)
| JNum (n : Js.number)
| JStr (s : string)
| JArr (items : list json)
| JObj (fields : list (string * json)).
#[local] Set Elimination Schemes.

(** [new File([bits], name, { type })]. *)
Record File : Type := mkFile {
  file_bits : list Byte.byte;
  file_name : string;
  file_type : string
}.

Inductive form_value : Type :=
| FormText (s : string)
| FormFile (f : File).

Inductive body : Type :=
| JsonBody (j : json)
| FormBody (entries : list (string * form_value)).

(** The two arguments of the global [fetch(url, init)]. *)
Record request : Type := mkRequest {
  url : string;
  method : string;
  headers : list (string * string);
  payload : body
}.

(** How a promise settles. *)
Inductive settled (A : Type) : Type :=
| Fulfilled (a : A)
| Rejected (error : string).
Arguments Fulfilled {A} a.
Arguments Rejected {A} error.

(** What the code reads of a fetch response: [status], and what
    [await response.text()] settles to. *)
Record response : Type := mkResponse {
  status : Z;
  text_read : settled string
}.

(** [response.ok]: a status in 200..299. *)
Definition ok (r : response) : bool :=
  ((200 <=? status r) && (status r <=? 299))%Z.

(** The value [env.AI.run] resolves to, read as [{ response?: string }]:
    [None] is a null result, [ai_response = None] a missing field. *)
Record AiOutput : Type := mkAiOutput { ai_response : option string }.

Inductive ai_outcome : Type :=
| AiResolves (out : option AiOutput)
| AiRejects (error : string).

(** One chat message of the AI call: role and content. *)
Record ai_message : Type := mkAiMessage { role : string; content : string }.

(** What an execution does that the outside can observe, in order. *)
Inductive event : Type :=
| ConsoleWarn (args : list string)
| ConsoleError (args : list string)
| FetchCall (req : request)
| FetchSettled (out : settled response)
| AiCall (model : string) (messages : list ai_message)
| AiSettled (out : ai_outcome).

(** The environment answers a call from the history so far (the call
    included) and the call: any deterministic Telegram API, reachable or
    not, and any AI model. *)
Record World : Type := mkWorld {
  telegram : list event -> request -> settled response;
  model_reply : list event -> string -> list ai_message -> ai_outcome
}.

(** Completion of an awaited computation: a value, or a thrown error. *)
Inductive completion (A : Type) : Type :=
| Normal (a : A)
| Throw (error : string).
Arguments Normal {A} a.
Arguments Throw {A} error.

(** An async computation: from the trace so far to a completion and the
    extended trace. *)
Definition Promise (A : Type) : Type := list event -> completion A * list event.

Definition ret {A : Type} (a : A) : Promise A := fun t => (Normal a, t).

Definition throw {A : Type} (error : string) : Promise A := fun t => (Throw error, t).

(** [await c; k]: a throw of [c] skips [k]. *)
Definition bind {A B : Type} (c : Promise A) (k : A -> Promise B) : Promise B :=
  fun t =>
    match c t with
    | (Normal a, t') => k a t'
    | (Throw e, t') => (Throw e, t')
    end.

(** [try { c } catch (error) { handler }]. *)
Definition try_catch {A : Type} (c : Promise A) (handler : string -> Promise A)
  : Promise A :=
  fun t =>
    match c t with
    | (Normal a, t') => (Normal a, t')
    | (Throw e, t') => handler e t'
    end.

Definition emit (e : event) : Promise unit := fun t => (Normal tt, t ++ [e]).

Definition console_warn (args : list string) : Promise unit := emit (ConsoleWarn args).
Definition console_error (args : list string) : Promise unit := emit (ConsoleError args).

(** [fetch(url, init)]: the call is issued and the caller gets its
    promise, here what the environment will settle it to. *)
Definition fetch (w : World) (req : request) : Promise (settled response) :=
  fun t =>
    let issued := t ++ [FetchCall req] in
    (Normal (telegram w issued req), issued).

(** [await p] on the promise of a fetch: the caller goes on once the
    call has settled, with the response, or by a throw when the call is
    rejected. *)
Definition await (p : settled response) : Promise response :=
  fun t =>
    match p with
    | Fulfilled resp => (Normal resp, t ++ [FetchSettled p])
    | Rejected e => (Throw e, t ++ [FetchSettled p])
    end.

(** [await response.text()]. *)
Definition response_text (resp : response) : Promise string :=
  match text_read resp with
  | Fulfilled s => ret s
  | Rejected e => throw e
  end.

(** [await env.AI.run(model, { messages })]. *)
Definition AI_run (w : World) (model : string) (messages : list ai_message)
  : Promise (option AiOutput) :=
  fun t =>
    let issued := t ++ [AiCall model messages] in
    let out := model_reply w issued model messages in
    match out with
    | AiResolves r => (Normal r, issued ++ [AiSettled out])
    | AiRejects e => (Throw e, issued ++ [AiSettled out])
    end.

(** [for (const x of xs) { await body(x) }]. *)
Fixpoint for_of {A : Type} (xs : list A) (body : A -> Promise unit) : Promise unit :=
  match xs with
  | [] => ret tt
  | x :: rest => bind (body x) (fun _ => for_of rest body)
  end.

End Runtime.

Import Runtime.

Notation "x <- c ;; k" := (bind c (fun x => k))
  (at level 61, c at next level, right associativity).
Notation "c ;;; k" := (bind c (fun _ => k))
  (at level 61, right associativity).

(** ** The agent *)

Module TempMailAgent.

(** [Env]: the credential and the domain; the [AI] binding is the
    [model_reply] of the [World]. *)
Record Env : Type := mkEnv {
  TELEGRAM_BOT_TOKEN : string;
  DOMAIN : string
}.

(** postal-mime's [Attachment] and parsed [Email], as far as the agent
    reads them; an absent or null field is [None]. *)
Record Attachment : Type := mkAttachment {
  filename : option string;
  mimeType : option string;
  content : list Byte.byte
}.

Record Email : Type := mkEmail {
  subject : option string;
  text : option string;
  html : option string;
  attachments : option (list Attachment)
}.

(** [AgentEmail]: the envelope, and what [PostalMime.parse(await
    email.getRaw())] resolves to (lines 37-38; both collaborators are
    taken to succeed). *)
Record AgentEmail : Type := mkAgentEmail {
  from : string;
  to : string;
  parsed : Email
}.

(** The line feed of the template literals. *)
Definition nl : string := String (ascii_of_nat 10) EmptyString.

(** [a || b] on strings, [a] possibly absent. *)
Definition or_else (a : option string) (b : string) : string :=
  match a with
  | Some (String c r) => String c r
  | _ => b
  end.

(** Lines 115-122. *)
Definition escapeHtml (unsafe : string) : string :=
  Js.replace_all "'" "&#039;"
    (Js.replace_all Js.dquote "&quot;"
      (Js.replace_all ">" "&gt;"
        (Js.replace_all "<" "&lt;"
          (Js.replace_all "&" "&amp;" unsafe)))).

(** The [reply_markup] of line 134: one inline button, callback data
    [dismiss]. *)
Definition dismiss_keyboard : json :=
  JObj [("inline_keyboard",
         JArr [JArr [JObj [("text", JStr "🗑️ Dismiss Email");
                           ("callback_data", JStr "dismiss")]]])].

(** The request of lines 125-140. *)
Definition sendMessage_request (chatId text token : string) : request :=
  mkRequest ("https://api.telegram.org/bot" ++ token ++ "/sendMessage")
    "POST"
    [("Content-Type", "application/json")]
    (JsonBody (JObj [("chat_id", JStr chatId);
                     ("text", JStr text);
                     ("parse_mode", JStr "HTML");
                     ("reply_markup", dismiss_keyboard)])).

(** Lines 124-145. *)
Definition sendTelegramMessage (w : World) (chatId text token : string)
  : Promise unit :=
  pending <- fetch w (sendMessage_request chatId text token) ;;
  response <- await pending ;;
  if negb (ok response) then
    body <- response_text response ;;
    console_error
      ["Telegram API Error (sendMessage): " ++ Js.number_toString (status response);
       body]
  else ret tt.

(** Line 153. *)
Definition fileName_of (attachment : Attachment) : string :=
  or_else (filename attachment) "unnamed_attachment.bin".

(** The request of lines 148-166. *)
Definition sendDocument_request (chatId : string) (attachment : Attachment)
  (token : string) : request :=
  let fileName := fileName_of attachment in
  let mimeType := or_else (mimeType attachment) "application/octet-stream" in
  let file := mkFile (content attachment) fileName (Js.file_type_of mimeType) in
  let caption :=
    "📎 <b>Attachment:</b> <i>" ++ escapeHtml fileName ++ "</i>" ++ nl ++
    "📦 <b>Size:</b> " ++
    Js.kilobytes_toFixed2 (N.of_nat (List.length (content attachment))) ++ " KB" in
  mkRequest ("https://api.telegram.org/bot" ++ token ++ "/sendDocument")
    "POST"
    []
    (FormBody [("chat_id", FormText chatId);
               ("document", FormFile file);
               ("caption", FormText caption);
               ("parse_mode", FormText "HTML")]).

(** The notice of line 173. *)
Definition oversize_notice (fileName : string) : string :=
  "⚠️ <b>Failed to send attachment.</b>" ++ nl ++
  "File <i>" ++ escapeHtml fileName ++ "</i> exceeds Telegram's 50MB Bot API limit.".

(** Lines 147-178. *)
Definition sendTelegramDocument (w : World) (chatId : string)
  (attachment : Attachment) (token : string) : Promise unit :=
  pending <- fetch w (sendDocument_request chatId attachment token) ;;
  response <- await pending ;;
  if negb (ok response) then
    body <- response_text response ;;
    console_error
      ["Telegram API Error (sendDocument): " ++ Js.number_toString (status response);
       body] ;;;
    if (status response =? 413)%Z then
      sendTelegramMessage w chatId (oversize_notice (fileName_of attachment)) token
    else ret tt
  else ret tt.

Definition summary_model : string := "@cf/zai-org/glm-4.7-flash".

Definition summary_instruction : string :=
  "You are a highly efficient assistant. Summarize the following email text into exactly one concise, informative sentence.".

(** Lines 93-113. *)
Definition generateEmailSummary (w : World) (text : string) : Promise string :=
  try_catch
    (let boundedText := Js.substring0 2000 text in
     response <- AI_run w summary_model
                   [mkAiMessage "system" summary_instruction;
                    mkAiMessage "user" boundedText] ;;
     match response with
     | Some (mkAiOutput (Some (String c r))) => ret (Js.trim (String c r))
     | _ => ret "Summary generation yielded no result."
     end)
    (fun error =>
       console_error ["AI Summarization failed:"; error] ;;;
       ret "Automated summary temporarily unavailable.").

(** Lines 56-57: [cleanTextBody]. *)
Definition cleanTextBody (parsed : Email) : string :=
  Js.trim (or_else (text parsed)
             (or_else (option_map (Js.strip_markup false) (html parsed)) EmptyString)).

(** Lines 60-63: [aiSummary]. *)
Definition aiSummary (w : World) (cleanTextBody : string) : Promise string :=
  if (20 <? String.length cleanTextBody)%nat then generateEmailSummary w cleanTextBody
  else ret "No content available to summarize.".

Definition snippetLength : nat := 500.

(** Line 66: [snippet]. *)
Definition snippet (cleanTextBody : string) : string :=
  Js.substring0 snippetLength cleanTextBody ++
  (if (snippetLength <? String.length cleanTextBody)%nat
   then "..." ++ nl ++ "[Message Truncated]"
   else EmptyString).

(** Line 67: [attachmentCount]. *)
Definition attachmentCount (parsed : Email) : nat :=
  match attachments parsed with
  | Some l => List.length l
  | None => 0
  end.

Definition rule : string := "━━━━━━━━━━━━━━━━━━━━".

(** Lines 69-80: [messagePayload]. *)
Definition messagePayload (email : AgentEmail) (toAddress aiSummary snippet : string)
  : string :=
  "📥 <b>New Email Received!</b>" ++ nl ++
  rule ++ nl ++
  "👤 <b>From:</b> <code>" ++ escapeHtml (from email) ++ "</code>" ++ nl ++
  "🎯 <b>To:</b> <code>" ++ escapeHtml toAddress ++ "</code>" ++ nl ++
  "📑 <b>Subject:</b> <i>" ++
    escapeHtml (or_else (subject (parsed email)) "No Subject") ++ "</i>" ++ nl ++
  "📎 <b>Attachments:</b> " ++
    Js.number_toString (Z.of_nat (attachmentCount (parsed email))) ++ nl ++
  rule ++ nl ++
  "🤖 <b>AI Summary:</b>" ++ nl ++ "<i>" ++ escapeHtml aiSummary ++ "</i>" ++ nl ++
  rule ++ nl ++ nl ++
  "📝 <b>Message:</b>" ++ nl ++
  "<pre>" ++ escapeHtml (or_else (Some snippet) "No readable text content.") ++ "</pre>".

(** Lines 86-90: the attachment loop. *)
Definition sendAttachments (w : World) (chatId : string) (email : AgentEmail)
  (token : string) : Promise unit :=
  match attachments (parsed email) with
  | Some l =>
      if (0 <? attachmentCount (parsed email))%nat then
        for_of l (fun attachment => sendTelegramDocument w chatId attachment token)
      else ret tt
  | None => ret tt
  end.

(** Lines 36-91. *)
Definition onEmail (w : World) (env : Env) (email : AgentEmail) : Promise unit :=
  let toAddress := Js.toLowerCase (to email) in
  match Resolver.match_plus_at toAddress with
  | None =>
      console_warn ["Dropped email: No chat ID found in recipient address"; toAddress]
  | Some chatId =>
      let telegramToken := TELEGRAM_BOT_TOKEN env in
      if negb (Js.truthy (Some telegramToken)) then
        throw "TELEGRAM_BOT_TOKEN is not configured in the environment."
      else
        let clean := cleanTextBody (parsed email) in
        summary <- aiSummary w clean ;;
        sendTelegramMessage w chatId
          (messagePayload email toAddress summary (snippet clean)) telegramToken ;;;
        sendAttachments w chatId email telegramToken
  end.

End TempMailAgent.

(** ** The worker's webhook handler *)

Module Worker.

Import TempMailAgent.

Local Open Scope list_scope.

(** [TelegramUpdate], lines 13-33: the shape the handler declares for its
    input, which it does not check. *)
Record Chat : Type := mkChat { chat_id : Z; chat_type : string }.

Record Message : Type := mkMessage {
  message_id : Z;
  chat : Chat;
  message_text : option string
}.

Record CallbackMessage : Type := mkCallbackMessage {
  callback_message_id : Z;
  callback_chat_id : Z
}.

Record CallbackQuery : Type := mkCallbackQuery {
  callback_id : string;
  data : string;
  callback_message : option CallbackMessage
}.

Record TelegramUpdate : Type := mkUpdate {
  update_id : Z;
  message : option Message;
  callback_query : option CallbackQuery
}.

(** The JSON value of an update of that shape; an optional member that
    is absent is left out. *)
Definition member (key : string) (v : option json) : list (string * json) :=
  match v with
  | Some j => [(key, j)]
  | None => []
  end.

Definition int_json (z : Z) : json := JNum (Js.SafeInt z).

Definition chat_json (c : Chat) : json :=
  JObj [("id", int_json (chat_id c)); ("type", JStr (chat_type c))].

Definition message_json (m : Message) : json :=
  JObj ([("message_id", int_json (message_id m)); ("chat", chat_json (chat m))]
        ++ member "text" (option_map JStr (message_text m))).

Definition callback_message_json (m : CallbackMessage) : json :=
  JObj [("message_id", int_json (callback_message_id m));
        ("chat", JObj [("id", int_json (callback_chat_id m))])].

Definition callback_query_json (q : CallbackQuery) : json :=
  JObj ([("id", JStr (callback_id q)); ("data", JStr (data q))]
        ++ member "message" (option_map callback_message_json (callback_message q))).

Definition update_json (u : TelegramUpdate) : json :=
  JObj ([("update_id", int_json (update_id u))]
        ++ member "message" (option_map message_json (message u))
        ++ member "callback_query" (option_map callback_query_json (callback_query u))).

(** The inbound [Request]: method, [new URL(request.url).pathname], and
    what [request.json()] is fulfilled with, [None] when it rejects. *)
Record Request : Type := mkWebRequest {
  request_method : string;
  pathname : string;
  request_body : option json
}.

(** [new Response(body, { status })]. *)
Record Response : Type := mkReply {
  reply_body : string;
  reply_status : Z
}.

Definition request_json (request : Request) : Promise json :=
  match request_body request with
  | Some update => ret update
  | None => throw "SyntaxError: request body is not valid JSON"
  end.

(** A JavaScript value read out of the update: a JSON value, or [None]
    for [undefined]. *)
Definition value : Type := option json.

(** Truthiness: [undefined], [null], [false], [0] and the empty string
    are falsy. *)
Definition truthy (v : value) : bool :=
  match v with
  | None => false
  | Some JNull => false
  | Some (JBool b) => b
  | Some (JNum (Js.SafeInt z)) => negb (z =? 0)%Z
  | Some (JNum (Js.OtherNumber _)) => true
  | Some (JStr s) => negb (s =? "")
  | Some (JArr _) => true
  | Some (JObj _) => true
  end.

(** The own property [key] of a parsed object: a key written twice in
    the JSON text keeps its last value. *)
Fixpoint own (key : string) (fields : list (string * json)) : value :=
  match fields with
  | [] => None
  | (k, v) :: rest =>
      match own key rest with
      | Some later => Some later
      | None => if k =? key then Some v else None
      end
  end.

(** The read [v.key], for the keys the handler reads ([callback_query],
    [message], [chat], [id], [message_id], [data], [text]), none of which
    is inherited from a prototype: a throw on [undefined] and [null], the
    own property on an object, [undefined] on anything else. *)
Definition get (v : value) (key : string) : Promise value :=
  match v with
  | None =>
      throw ("TypeError: Cannot read properties of undefined (reading '" ++ key ++ "')")
  | Some JNull =>
      throw ("TypeError: Cannot read properties of null (reading '" ++ key ++ "')")
  | Some (JObj fields) => ret (own key fields)
  | Some _ => ret None
  end.

(** The optional read [v?.key]. *)
Definition get_optional (v : value) (key : string) : Promise value :=
  match v with
  | None => ret None
  | Some JNull => ret None
  | _ => get v key
  end.

(** The text a template literal gives a JSON value.  An array joins the
    texts of its elements with commas, [null] counting as empty; an object
    is [[object Object]], unless it has an own [toString], which is no
    function: the conversion then throws. *)
Fixpoint json_text (v : json) : completion string :=
  match v with
  | JNull => Normal "null"
  | JBool true => Normal "true"
  | JBool false => Normal "false"
  | JNum n => Normal (Js.number_text n)
  | JStr s => Normal s
  | JArr items =>
      (fix join (l : list json) : completion string :=
         match l with
         | [] => Normal EmptyString
         | x :: rest =>
             match (match x with JNull => Normal EmptyString | _ => json_text x end) with
             | Throw e => Throw e
             | Normal first =>
                 match rest with
                 | [] => Normal first
                 | _ :: _ =>
                     match join rest with
                     | Throw e => Throw e
                     | Normal others => Normal (first ++ "," ++ others)%string
                     end
                 end
             end
         end) items
  | JObj fields =>
      match own "toString" fields with
      | Some _ => Throw "TypeError: Cannot convert object to primitive value"
      | None => Normal "[object Object]"
      end
  end.

Definition template_text (v : value) : Promise string :=
  match v with
  | None => ret "undefined"
  | Some j =>
      match json_text j with
      | Normal s => ret s
      | Throw e => throw e
      end
  end.

(** [text.trim()] on a truthy value: a string is trimmed; anything else
    has no callable [trim], and the call throws. *)
Definition trim_call (text : value) : Promise string :=
  match text with
  | Some (JStr s) => ret (Js.trim s)
  | _ => throw "TypeError: update.message.text.trim is not a function"
  end.

(** [v === "dismiss"]. *)
Definition is_dismiss (v : value) : bool :=
  match v with
  | Some (JStr s) => s =? "dismiss"
  | _ => false
  end.

(** The request of lines 194-201; [JSON.stringify] leaves out a member
    whose value is [undefined]. *)
Definition deleteMessage_request (env : Env) (chatId messageId : value) : request :=
  mkRequest ("https://api.telegram.org/bot" ++ TELEGRAM_BOT_TOKEN env ++ "/deleteMessage")%string
    "POST"
    [("Content-Type", "application/json")]
    (JsonBody (JObj (member "chat_id" chatId ++ member "message_id" messageId))).

(** Line 212: [userEmail], from the text of the chat identifier. *)
Definition userEmail (env : Env) (chatId : string) : string :=
  ("tempmail+" ++ chatId ++ "@" ++ DOMAIN env)%string.

(** Lines 214-220: [welcomeMsg]. *)
Definition welcomeMsg (userEmail : string) : string :=
  ("✨ <b>Premium AI TempMail Bot</b> ✨" ++ nl ++ nl ++
  "Your secure, disposable email address is active:" ++ nl ++ nl ++
  "📧 <code>" ++ userEmail ++ "</code>" ++ nl ++ nl ++
  "<i>Tap the address to copy. Messages and attachments will be instantly delivered here with an AI-generated summary.</i>" ++ nl ++ nl ++
  "🛡️ <b>Powered by Cloudflare Agents</b>" ++ nl ++
  "📣 <b>Updates:</b> @drkingbd")%string.

(** The request of lines 222-230. *)
Definition welcome_request (env : Env) (chatId : value) (userEmail : string) : request :=
  mkRequest ("https://api.telegram.org/bot" ++ TELEGRAM_BOT_TOKEN env ++ "/sendMessage")%string
    "POST"
    [("Content-Type", "application/json")]
    (JsonBody (JObj (member "chat_id" chatId ++
                     [("text", JStr (welcomeMsg userEmail));
                      ("parse_mode", JStr "HTML")]))).

Definition OK : Response := mkReply "OK" 200.

(** Lines 190-203: the callback branch, entered with the callback query
    and its message, both truthy. *)
Definition on_callback (w : World) (env : Env) (query message : value)
  : Promise Response :=
  chat <- get message "chat" ;;
  chatId <- get chat "id" ;;
  messageId <- get message "message_id" ;;
  data <- get query "data" ;;
  (if is_dismiss data then
     pending <- Runtime.fetch w (deleteMessage_request env chatId messageId) ;;
     await pending ;;; ret tt
   else ret tt) ;;;
  ret OK.

(** Lines 206-233: the message branch. *)
Definition on_message (w : World) (env : Env) (update : json) : Promise Response :=
  message <- get (Some update) "message" ;;
  text <- get_optional message "text" ;;
  chat <- (if truthy text then get message "chat" else ret text) ;;
  (if truthy text && truthy chat then
     chatId <- get chat "id" ;;
     text <- trim_call text ;;
     if Js.startsWith text "/start" then
       chatText <- template_text chatId ;;
       pending <- Runtime.fetch w (welcome_request env chatId (userEmail env chatText)) ;;
       await pending ;;; ret tt
     else ret tt
   else ret tt) ;;;
  ret OK.

(** Lines 187-233: the body of the [try]. *)
Definition process (w : World) (request : Request) (env : Env) : Promise Response :=
  update <- request_json request ;;
  query <- get (Some update) "callback_query" ;;
  message <- (if truthy query then get query "message" else ret query) ;;
  if truthy query && truthy message then on_callback w env query message
  else on_message w env update.

(** Lines 182-241: [fetch(request, env)]. *)
Definition fetch (w : World) (request : Request) (env : Env) : Promise Response :=
  if ((request_method request =? "POST") && (pathname request =? "/webhook/telegram"))%string
  then
    try_catch (process w request env)
      (fun error =>
         console_error ["Failed to process webhook:"; error] ;;;
         ret (mkReply "Internal Server Error" 500))
  else ret (mkReply "Not Found" 404).

End Worker.

(** ** Vocabulary of the properties *)

Module Observe.

(** [s.includes(x)]: [x] occurs in [s]. *)
Definition includes (s x : string) : Prop := exists a b, s = a ++ x ++ b.

(** Some code unit of [s] satisfies [p]. *)
Fixpoint has_unit (p : ascii -> bool) (s : string) : bool :=
  match s with
  | EmptyString => false
  | String c r => p c || has_unit p r
  end.

Definition is_unit (c : ascii) : ascii -> bool := fun x => Ascii.eqb x c.

(** The entity the specification gives each of the five characters; any
    other character stands for itself. *)
Definition entity (c : ascii) : string :=
  if Ascii.eqb c "&" then "&amp;"
  else if Ascii.eqb c "<" then "&lt;"
  else if Ascii.eqb c ">" then "&gt;"
  else if Ascii.eqb c Js.dquote then "&quot;"
  else if Ascii.eqb c "'" then "&#039;"
  else String c EmptyString.

(** Escaping as the specification words it: one pass over the input,
    each character replaced once by its entity form. *)
Fixpoint escape_each (x : string) : string :=
  match x with
  | EmptyString => EmptyString
  | String c r => entity c ++ escape_each r
  end.

(** The requests a trace issued, in order. *)
Fixpoint fetch_calls (t : list event) : list request :=
  match t with
  | [] => []
  | FetchCall req :: rest => req :: fetch_calls rest
  | _ :: rest => fetch_calls rest
  end.

(** The AI calls of a trace. *)
Fixpoint ai_calls (t : list event) : list (string * list ai_message) :=
  match t with
  | [] => []
  | AiCall model messages :: rest => (model, messages) :: ai_calls rest
  | _ :: rest => ai_calls rest
  end.

(** Every fetch of the trace settles before the next event: no call is
    issued while another is in flight. *)
Fixpoint awaited (t : list event) : bool :=
  match t with
  | [] => true
  | FetchCall _ :: rest =>
      match rest with
      | FetchSettled _ :: rest' => awaited rest'
      | _ => false
      end
  | FetchSettled _ :: _ => false
  | _ :: rest => awaited rest
  end.

Fixpoint reverse (s : string) : string :=
  match s with
  | EmptyString => EmptyString
  | String c r => reverse r ++ String c EmptyString
  end.

(** [s.endsWith(p)]. *)
Definition endsWith (s p : string) : bool := prefix (reverse p) (reverse s).

(** A call of the Bot API method [name]: the URL ends in [/name]. *)
Definition calls_method (name : string) (req : request) : bool :=
  endsWith (url req) ("/" ++ name).

(** Field [key] of a JSON request body. *)
Fixpoint lookup (key : string) (fields : list (string * json)) : option json :=
  match fields with
  | [] => None
  | (k, v) :: rest => if k =? key then Some v else lookup key rest
  end.

Definition json_field (key : string) (req : request) : option json :=
  match payload req with
  | JsonBody (JObj fields) => lookup key fields
  | _ => None
  end.

(** The trace holds console output only. *)
Definition only_console (t : list event) : bool :=
  forallb (fun e => match e with
                    | ConsoleWarn _ | ConsoleError _ => true
                    | _ => false
                    end) t.

(** The console line of a failed call, lines 143 and 169. *)
Definition failure_log (method : string) (r : response) (body : string) : event :=
  ConsoleError [("Telegram API Error (" ++ method ++ "): " ++
                 Js.number_toString (status r))%string; body].

(** The API answers every call, and every body can be read: no fetch
    and no body read is ever rejected. *)
Definition always_answers (w : World) : Prop :=
  forall (history : list event) (req : request),
  exists (s : Z) (b : string),
    telegram w history req = Fulfilled (mkResponse s (Fulfilled b)).

(** The document call got a response with status 413 whose body was
    read: the case in which [sendTelegramDocument] goes on to the notice. *)
Definition sends_notice (out : settled response) : bool :=
  match out with
  | Fulfilled r =>
      (status r =? 413)%Z &&
      match text_read r with
      | Fulfilled _ => true
      | Rejected _ => false
      end
  | Rejected _ => false
  end.

(** The calls of [sendTelegramDocument], given how its document call
    settled. *)
Definition attachment_calls (chatId token : string)
  (ao : TempMailAgent.Attachment * settled response) : list request :=
  let (attachment, out) := ao in
  TempMailAgent.sendDocument_request chatId attachment token ::
  (if sends_notice out then
     [TempMailAgent.sendMessage_request chatId
        (TempMailAgent.oversize_notice (TempMailAgent.fileName_of attachment)) token]
   else []).

(** The document call or the size-limit notice of one of [atts]. *)
Definition attachment_call (chatId token : string)
  (atts : list TempMailAgent.Attachment) (req : request) : Prop :=
  exists a,
    In a atts /\
    (req = TempMailAgent.sendDocument_request chatId a token \/
     req = TempMailAgent.sendMessage_request chatId
             (TempMailAgent.oversize_notice (TempMailAgent.fileName_of a)) token).

(** The messages of the AI call of lines 98-103 for the text [text]. *)
Definition prompt_of (text : string) : list ai_message :=
  [mkAiMessage "system" TempMailAgent.summary_instruction;
   mkAiMessage "user" (Js.substring0 2000 text)].

(** The attachments the loop of onEmail runs over. *)
Definition attachments_of (parsed : TempMailAgent.Email) : list TempMailAgent.Attachment :=
  match TempMailAgent.attachments parsed with
  | Some l => l
  | None => []
  end.

End Observe.

(** Sample environments and inputs for the concrete runs. *)

Module Sample.

(** A Telegram API that answers every call with status [s] and a body
    that reads, and a model that answers every prompt with [out]. *)
Definition world (s : Z) (out : ai_outcome) : World :=
  mkWorld (fun _ _ => Fulfilled (mkResponse s (Fulfilled "{}"))) (fun _ _ _ => out).

Definition silent : ai_outcome := AiResolves (Some (mkAiOutput None)).




Definition env : TempMailAgent.Env := TempMailAgent.mkEnv "123:ABC" "example.com".

Definition report : TempMailAgent.Attachment :=
  TempMailAgent.mkAttachment (Some "report <Q1>.pdf") (Some "application/pdf") [].

Definition photo : TempMailAgent.Attachment :=
  TempMailAgent.mkAttachment None None [].

Definition mail (to : string) (text : string)
  (atts : list TempMailAgent.Attachment) : TempMailAgent.AgentEmail :=
  TempMailAgent.mkAgentEmail "alice@example.org" to
    (TempMailAgent.mkEmail (Some "Hi") (Some text) None (Some atts)).


(** A POST to the webhook path with the JSON value [body]. *)
Definition post (body : json) : Worker.Request :=
  Worker.mkWebRequest "POST" "/webhook/telegram" (Some body).

End Sample.

(** Further vocabulary, for the properties beyond the specification. *)

Module Shape.

(** One of the five characters [escapeHtml] rewrites. *)
Definition is_escaped_unit (c : ascii) : bool :=
  Ascii.eqb c "&" || Ascii.eqb c "<" || Ascii.eqb c ">" ||
  Ascii.eqb c Js.dquote || Ascii.eqb c "'".

(** A character that opens or closes markup or an attribute value. *)
Definition is_markup_unit (c : ascii) : bool :=
  Ascii.eqb c "<" || Ascii.eqb c ">" || Ascii.eqb c Js.dquote || Ascii.eqb c "'".

(** A decimal digit or the minus sign. *)
Definition is_numeral_unit (c : ascii) : bool :=
  let n := nat_of_ascii c in
  (((48 <=? n) && (n <=? 57)) || (n =? 45))%nat.

(** Every code unit of [s] satisfies [p]. *)
Fixpoint all_units (p : ascii -> bool) (s : string) : bool :=
  match s with
  | EmptyString => true
  | String c r => p c && all_units p r
  end.

(** The truncation marker of line 66. *)
Definition truncation_marker : string :=
  "..." ++ TempMailAgent.nl ++ "[Message Truncated]".

(** The integer a decimal numeral denotes, by the parser of the
    standard library. *)
Definition decimal_value (s : string) : option Z :=
  option_map Z.of_int (NilZero.int_of_string s).


(** How often a code unit satisfying [p] occurs in [s]. *)
Fixpoint count_units (p : ascii -> bool) (s : string) : nat :=
  match s with
  | EmptyString => 0
  | String c r => (if p c then 1 else 0) + count_units p r
  end.




(** Field [key] of a multipart form. *)
Fixpoint form_lookup (key : string) (entries : list (string * form_value))
  : option form_value :=
  match entries with
  | [] => None
  | (k, v) :: rest => if k =? key then Some v else form_lookup key rest
  end.

(** The chat a Bot API call addresses: its [chat_id], a string or a
    number in a JSON body, a text field in a form. *)
Definition chat_of (req : request) : option string :=
  match payload req with
  | JsonBody (JObj fields) =>
      match Observe.lookup "chat_id" fields with
      | Some (JStr s) => Some s
      | Some (JNum n) => Some (Js.number_text n)
      | _ => None
      end
  | FormBody entries =>
      match form_lookup "chat_id" entries with
      | Some (FormText s) => Some s
      | _ => None
      end
  | _ => None
  end.

(** The file of the [document] field of a form. *)
Definition document_of (req : request) : option File :=
  match payload req with
  | FormBody entries =>
      match form_lookup "document" entries with
      | Some (FormFile f) => Some f
      | _ => None
      end
  | _ => None
  end.

(** The [caption] field of a form. *)
Definition caption_of (req : request) : option string :=
  match payload req with
  | FormBody entries =>
      match form_lookup "caption" entries with
      | Some (FormText s) => Some s
      | _ => None
      end
  | _ => None
  end.

(** The request is a POST to the webhook path: the test of line 185. *)
Definition is_webhook (request : Worker.Request) : bool :=
  (Worker.request_method request =? "POST") &&
  (Worker.pathname request =? "/webhook/telegram").

(** The answer of the handler's [catch]. *)
Definition failure_reply : Worker.Response :=
  Worker.mkReply "Internal Server Error" 500.


End Shape.

(** * Properties *)

Import TempMailAgent Observe Shape.

(** ** Strings *)

Section StringFacts.

Lemma append_assoc (a b c : string) : (a ++ b) ++ c = a ++ (b ++ c).
Proof. induction a as [|x a IH]; simpl; [reflexivity | now rewrite IH]. Qed.

Lemma append_nil_r (a : string) : a ++ "" = a.
Proof. induction a as [|x a IH]; simpl; [reflexivity | now rewrite IH]. Qed.

Lemma length_append (a b : string) :
  String.length (a ++ b) = String.length a + String.length b.
Proof. induction a as [|x a IH]; simpl; [reflexivity | now rewrite IH]. Qed.

Lemma substring0_all (n : nat) (s : string) :
  String.length s <= n -> Js.substring0 n s = s.
Proof.
  unfold Js.substring0. revert n.
  induction s as [|c s IH]; intros [|n] H; simpl in *; try reflexivity; try lia.
  f_equal. apply IH. lia.
Qed.

Lemma substring0_length (n : nat) (s : string) :
  n <= String.length s -> String.length (Js.substring0 n s) = n.
Proof.
  unfold Js.substring0. revert n.
  induction s as [|c s IH]; intros [|n] H; simpl in *; try reflexivity; try lia.
  f_equal. apply IH. lia.
Qed.

Lemma substring0_prefix (n : nat) (s : string) :
  exists rest, s = Js.substring0 n s ++ rest.
Proof.
  unfold Js.substring0. revert n.
  induction s as [|c s IH]; intros [|n]; simpl.
  - now exists "".
  - now exists "".
  - now exists (String c s).
  - destruct (IH n) as [rest E]. exists rest. now rewrite <- E.
Qed.

Lemma replace_all_app (c : ascii) (by_ a b : string) :
  Js.replace_all c by_ (a ++ b) = Js.replace_all c by_ a ++ Js.replace_all c by_ b.
Proof.
  induction a as [|x a IH]; simpl; [reflexivity|].
  destruct (Ascii.eqb x c); rewrite IH; simpl; [now rewrite append_assoc | reflexivity].
Qed.

Lemma escapeHtml_app (a b : string) :
  escapeHtml (a ++ b) = escapeHtml a ++ escapeHtml b.
Proof. unfold escapeHtml. now rewrite !replace_all_app. Qed.

Lemma escapeHtml_unit (c : ascii) : escapeHtml (String c "") = entity c.
Proof. destruct c as [[] [] [] [] [] [] [] []]; reflexivity. Qed.

End StringFacts.

(** C6. [escapeHtml], the chain of five global replacements, is a
    function of its input that agrees on every string with the one-pass
    escaping of the specification: each occurrence of one of the five
    characters becomes its entity, once, and every other character is
    kept. *)
Theorem escapeHtml_escapes_each_once (x : string) :
  escapeHtml x = escape_each x.
Proof.
  induction x as [|c r IH]; [reflexivity|].
  change (String c r) with (String c "" ++ r).
  rewrite escapeHtml_app, escapeHtml_unit, IH. reflexivity.
Qed.

(** C5. The snippet of a normalized text of at most 500 code units is
    the text itself; the snippet of a longer text is its first 500 code
    units followed by the truncation marker. *)
Theorem snippet_bound (clean : string) :
  (String.length clean <= 500 -> snippet clean = clean) /\
  (500 < String.length clean ->
     snippet clean = Js.substring0 500 clean ++ "..." ++ nl ++ "[Message Truncated]" /\
     String.length (Js.substring0 500 clean) = 500 /\
     exists rest, clean = Js.substring0 500 clean ++ rest).
Proof.
  unfold snippet, snippetLength. split; intros H.
  - destruct (Nat.ltb_spec 500 (String.length clean)) as [L|L]; [lia|].
    rewrite substring0_all by exact H. apply append_nil_r.
  - destruct (Nat.ltb_spec 500 (String.length clean)) as [L|L]; [|lia].
    split; [reflexivity|]. split.
    + apply substring0_length. lia.
    + apply substring0_prefix.
Qed.

(** A short body, and a body of 510 code units. *)
Lemma snippet_bound_witness :
  snippet "Hello world" = "Hello world" /\
  snippet (String.concat "" (List.repeat "0123456789" 51)) =
    String.concat "" (List.repeat "0123456789" 50) ++ "..." ++ nl ++ "[Message Truncated]".
Proof.
  split.
  - apply (proj1 (snippet_bound "Hello world")). simpl. lia.
  - destruct (proj2 (snippet_bound (String.concat "" (List.repeat "0123456789" 51))))
      as [E _].
    + apply Nat.ltb_lt. vm_compute. reflexivity.
    + rewrite E. vm_compute. reflexivity.
Defined.

(** ** The recipient resolver *)

Section ResolverFacts.

Lemma lower_unit_plus (c : ascii) :
  Ascii.eqb (Js.lower_unit c) "+" = Ascii.eqb c "+".
Proof. destruct c as [[] [] [] [] [] [] [] []]; reflexivity. Qed.

Lemma lower_unit_at (c : ascii) :
  Ascii.eqb (Js.lower_unit c) "@" = Ascii.eqb c "@".
Proof. destruct c as [[] [] [] [] [] [] [] []]; reflexivity. Qed.

Lemma lower_unit_line_terminator (c : ascii) :
  Resolver.is_line_terminator (Js.lower_unit c) = Resolver.is_line_terminator c.
Proof. destruct c as [[] [] [] [] [] [] [] []]; reflexivity. Qed.

Lemma toLowerCase_app (a b : string) :
  Js.toLowerCase (a ++ b) = Js.toLowerCase a ++ Js.toLowerCase b.
Proof. induction a as [|x a IH]; simpl; [reflexivity | now rewrite IH]. Qed.

Lemma toLowerCase_split (s x y : string) :
  Js.toLowerCase s = x ++ y ->
  exists x' y', s = x' ++ y' /\ Js.toLowerCase x' = x /\ Js.toLowerCase y' = y.
Proof.
  revert s. induction x as [|c x IH]; intros s E.
  - exists "", s. auto.
  - destruct s as [|d s]; simpl in E; [discriminate|].
    injection E as Ec Es. destruct (IH s Es) as (x' & y' & -> & Ex & Ey).
    exists (String d x'), y'. simpl. now rewrite Ec, Ex.
Qed.

Lemma has_unit_lower_plus (s : string) :
  has_unit (is_unit "+") (Js.toLowerCase s) = has_unit (is_unit "+") s.
Proof.
  induction s as [|c s IH]; simpl; [reflexivity|].
  unfold is_unit at 1 3. now rewrite lower_unit_plus, IH.
Qed.

Lemma has_unit_lower_at (s : string) :
  has_unit (is_unit "@") (Js.toLowerCase s) = has_unit (is_unit "@") s.
Proof.
  induction s as [|c s IH]; simpl; [reflexivity|].
  unfold is_unit at 1 3. now rewrite lower_unit_at, IH.
Qed.

Lemma has_unit_lower_line_terminator (s : string) :
  has_unit Resolver.is_line_terminator (Js.toLowerCase s) =
  has_unit Resolver.is_line_terminator s.
Proof.
  induction s as [|c s IH]; simpl; [reflexivity|].
  now rewrite lower_unit_line_terminator, IH.
Qed.

(** A [+] is skipped when nothing before it is one. *)
Lemma match_plus_at_skip (pre s : string) :
  has_unit (is_unit "+") pre = false ->
  Resolver.match_plus_at (pre ++ s) = Resolver.match_plus_at s.
Proof.
  induction pre as [|c pre IH]; simpl; [reflexivity|].
  unfold is_unit at 1. intros H. apply orb_false_iff in H as [Hc Hp].
  rewrite Hc. auto.
Qed.

(** What the capture returns is followed by an [@] in the subject. *)
Lemma capture_to_at_sound (s tok : string) :
  Resolver.capture_to_at s = Some tok ->
  tok <> "" /\ has_unit Resolver.is_line_terminator tok = false /\
  exists post, s = tok ++ "@" ++ post.
Proof.
  revert tok. induction s as [|c r IH]; intros tok; simpl; [discriminate|].
  destruct (Resolver.is_line_terminator c) eqn:Hc; [discriminate|].
  destruct (Resolver.capture_to_at r) as [tok'|] eqn:Hr.
  - intros [= <-]. destruct (IH tok' eq_refl) as (_ & Hlt & post & ->).
    split; [discriminate|]. split; [simpl; now rewrite Hc|]. now exists post.
  - destruct r as [|d r']; [discriminate|].
    destruct d as [[] [] [] [] [] [] [] []]; try discriminate.
    intros [= <-]. split; [discriminate|]. split; [simpl; now rewrite Hc|].
    now exists r'.
Qed.

Lemma capture_to_at_none (s : string) :
  has_unit (is_unit "@") s = false -> Resolver.capture_to_at s = None.
Proof.
  intros H. destruct (Resolver.capture_to_at s) as [tok|] eqn:E; [|reflexivity].
  destruct (capture_to_at_sound _ _ E) as (_ & _ & post & ->).
  exfalso. revert H. clear. induction tok as [|c tok IH]; simpl.
  - discriminate.
  - intros H. apply orb_false_iff in H as [_ H]. auto.
Qed.

Lemma capture_to_at_cons (c : ascii) (r : string) :
  Resolver.capture_to_at (String c r) =
  if Resolver.is_line_terminator c then None
  else match Resolver.capture_to_at r with
       | Some tok => Some (String c tok)
       | None => match r with
                 | String "@" _ => Some (String c EmptyString)
                 | _ => None
                 end
       end.
Proof. reflexivity. Qed.

(** The greedy capture runs to the last [@] of the line. *)
Lemma capture_to_at_last (tok post : string) :
  tok <> "" ->
  has_unit Resolver.is_line_terminator tok = false ->
  has_unit (is_unit "@") post = false ->
  Resolver.capture_to_at (tok ++ "@" ++ post) = Some tok.
Proof.
  intros Hne Hlt Hpost. induction tok as [|c r IH]; [congruence|].
  simpl in Hlt. apply orb_false_iff in Hlt as [Hc Hr].
  change (String c r ++ "@" ++ post) with (String c (r ++ "@" ++ post)).
  rewrite capture_to_at_cons, Hc. destruct r as [|d r'].
  - change ("" ++ "@" ++ post) with (String "@" post).
    rewrite capture_to_at_cons. rewrite (capture_to_at_none post Hpost).
    destruct post as [|p post']; [reflexivity|].
    simpl in Hpost. apply orb_false_iff in Hpost as [Hp _]. unfold is_unit in Hp.
    destruct p as [[] [] [] [] [] [] [] []]; try reflexivity; discriminate.
  - rewrite IH; [reflexivity | discriminate | exact Hr].
Qed.

Lemma match_plus_at_sound (s tok : string) :
  Resolver.match_plus_at s = Some tok ->
  tok <> "" /\ exists pre post, s = pre ++ "+" ++ tok ++ "@" ++ post.
Proof.
  induction s as [|c r IH]; simpl; [discriminate|].
  destruct (Ascii.eqb_spec c "+") as [->|Hc].
  - destruct (Resolver.capture_to_at r) as [tok'|] eqn:Hr.
    + intros [= ->]. destruct (capture_to_at_sound _ _ Hr) as (Hne & _ & post & ->).
      split; [exact Hne|]. now exists "", post.
    + intros H. destruct (IH H) as (Hne & pre & post & ->).
      split; [exact Hne|]. now exists (String "+" pre), post.
  - intros H. destruct (IH H) as (Hne & pre & post & ->).
    split; [exact Hne|]. now exists (String c pre), post.
Qed.

Lemma toLowerCase_plus_inv (s y : string) :
  Js.toLowerCase s = "+" ++ y -> exists y', s = "+" ++ y' /\ Js.toLowerCase y' = y.
Proof.
  destruct s as [|c s]; simpl; [discriminate|]. intros [= Hc Hs].
  exists s. split; [|exact Hs]. f_equal.
  apply Ascii.eqb_eq. rewrite <- lower_unit_plus, Hc. reflexivity.
Qed.

Lemma toLowerCase_at_inv (s y : string) :
  Js.toLowerCase s = "@" ++ y -> exists y', s = "@" ++ y' /\ Js.toLowerCase y' = y.
Proof.
  destruct s as [|c s]; simpl; [discriminate|]. intros [= Hc Hs].
  exists s. split; [|exact Hs]. f_equal.
  apply Ascii.eqb_eq. rewrite <- lower_unit_at, Hc. reflexivity.
Qed.

(** Every token the resolver returns is non-empty and is the lowercased
    text between a [+] and a later [@] of the address. *)
Lemma chatId_of_sound (to tok : string) :
  Resolver.chatId_of to = Some tok ->
  tok <> "" /\
  exists pre mid post, to = pre ++ "+" ++ mid ++ "@" ++ post /\ tok = Js.toLowerCase mid.
Proof.
  unfold Resolver.chatId_of. intros H.
  destruct (match_plus_at_sound _ _ H) as (Hne & pre & post & E).
  split; [exact Hne|].
  destruct (toLowerCase_split _ _ _ E) as (pre' & s1 & -> & _ & E1).
  destruct (toLowerCase_plus_inv _ _ E1) as (s2 & -> & E2).
  destruct (toLowerCase_split _ _ _ E2) as (mid & s3 & -> & Emid & E3).
  destruct (toLowerCase_at_inv _ _ E3) as (post' & -> & _).
  exists pre', mid, post'. now split.
Qed.

Lemma has_unit_after (pre rest : string) (c : ascii) :
  has_unit (is_unit c) (pre ++ String c rest) = true.
Proof.
  induction pre as [|x pre IH]; simpl.
  - unfold is_unit at 1. now rewrite Ascii.eqb_refl.
  - rewrite IH. apply orb_true_r.
Qed.

End ResolverFacts.

(** C1, as the code has it.  The resolver reads the address in lower
    case.  For an address [pre+TOKEN@post] whose [pre] holds no [+], whose
    TOKEN is non-empty and free of line terminators and whose [post] holds
    no [@] (TOKEN runs from the first [+] to the last [@], and may itself
    hold [+] and [@]), it returns TOKEN in lower case; an address with no
    [+...@] segment is a no-route; and every token returned is non-empty
    and is the lowercased text between a [+] and a later [@]. *)
Theorem resolver_returns_lowercased_token :
  (forall pre tok post : string,
      has_unit (is_unit "+") pre = false ->
      tok <> "" ->
      has_unit Resolver.is_line_terminator tok = false ->
      has_unit (is_unit "@") post = false ->
      Resolver.chatId_of (pre ++ "+" ++ tok ++ "@" ++ post) = Some (Js.toLowerCase tok)) /\
  (forall to : string,
      (forall pre mid post : string, to <> pre ++ "+" ++ mid ++ "@" ++ post) ->
      Resolver.chatId_of to = None) /\
  (forall to tok : string,
      Resolver.chatId_of to = Some tok ->
      tok <> "" /\
      exists pre mid post,
        to = pre ++ "+" ++ mid ++ "@" ++ post /\ tok = Js.toLowerCase mid).
Proof.
  split; [|split].
  - intros pre tok post Hpre Hne Hlt Hpost. unfold Resolver.chatId_of.
    rewrite !toLowerCase_app. rewrite match_plus_at_skip
      by now rewrite has_unit_lower_plus.
    simpl.
    change (String (Js.lower_unit "@") (Js.toLowerCase post))
      with ("@" ++ Js.toLowerCase post).
    rewrite capture_to_at_last; [reflexivity | | |].
    + destruct tok; [congruence | discriminate].
    + now rewrite has_unit_lower_line_terminator.
    + now rewrite has_unit_lower_at.
  - intros to Hno. destruct (Resolver.chatId_of to) as [tok|] eqn:E; [|reflexivity].
    destruct (chatId_of_sound _ _ E) as (_ & pre & mid & post & Eto & _).
    now destruct (Hno pre mid post).
  - exact chatId_of_sound.
Qed.

(** A token with a capital, a [+] and an [@]; and an address without
    segment. *)
Lemma resolver_returns_lowercased_token_witness :
  Resolver.chatId_of ("tempmail" ++ "+" ++ "Ab+C@d" ++ "@" ++ "example.com")
    = Some "ab+c@d" /\
  Resolver.chatId_of "foo@domain.com" = None.
Proof.
  split.
  - apply (proj1 resolver_returns_lowercased_token "tempmail" "Ab+C@d" "example.com");
      solve [reflexivity | discriminate].
  - apply (proj1 (proj2 resolver_returns_lowercased_token)).
    intros pre mid post E.
    pose proof (has_unit_after pre (mid ++ "@" ++ post) "+"
                : has_unit (is_unit "+") (pre ++ "+" ++ mid ++ "@" ++ post) = true) as H.
    rewrite <- E in H. discriminate H.
Defined.

(** C1 as stated fails: a token with capitals comes back in lower case,
    and with two [@] the token runs to the last one. *)
Lemma resolver_token_not_literal :
  (Resolver.chatId_of ("tempmail" ++ "+" ++ "AbC" ++ "@" ++ "example.com") = Some "abc" /\
   "abc" <> "AbC") /\
  (Resolver.chatId_of ("tempmail" ++ "+" ++ "42" ++ "@" ++ "a@example.com") = Some "42@a" /\
   "42@a" <> "42").
Proof. repeat split; try reflexivity; discriminate. Qed.

(** ** Traces *)

Section TraceFacts.

Local Open Scope list_scope.

Lemma fetch_calls_app (a b : list event) :
  fetch_calls (a ++ b) = fetch_calls a ++ fetch_calls b.
Proof.
  induction a as [|e a IH]; simpl; [reflexivity|].
  destruct e; simpl; now rewrite IH.
Qed.

Lemma ai_calls_app (a b : list event) :
  ai_calls (a ++ b) = ai_calls a ++ ai_calls b.
Proof.
  induction a as [|e a IH]; simpl; [reflexivity|].
  destruct e; simpl; now rewrite IH.
Qed.

Lemma awaited_app_both (b a : list event) :
  (awaited a = true -> awaited (a ++ b) = awaited b) /\
  (forall e, awaited (e :: a) = true -> awaited ((e :: a) ++ b) = awaited b).
Proof.
  induction a as [|x a [IHP IHQ]].
  - split; [reflexivity|]. intros e H. destruct e; simpl in *; congruence.
  - split; [exact (IHQ x)|].
    intros e H. destruct e; try exact (IHQ x H); try discriminate.
    destruct x; try discriminate. simpl in *. auto.
Qed.

Lemma awaited_app (a b : list event) :
  awaited a = true -> awaited b = true -> awaited (a ++ b) = true.
Proof. intros Ha Hb. now rewrite (proj1 (awaited_app_both b a) Ha). Qed.

Lemma only_console_fetch_calls (l : list event) :
  only_console l = true -> fetch_calls l = [].
Proof.
  induction l as [|e l IH]; simpl; [reflexivity|].
  destruct e; simpl; intros H; try discriminate; auto.
Qed.

Lemma only_console_ai_calls (l : list event) :
  only_console l = true -> ai_calls l = [].
Proof.
  induction l as [|e l IH]; simpl; [reflexivity|].
  destruct e; simpl; intros H; try discriminate; auto.
Qed.

Lemma only_console_awaited (l : list event) :
  only_console l = true -> awaited l = true.
Proof.
  induction l as [|e l IH]; simpl; [reflexivity|].
  destruct e; simpl; intros H; try discriminate; auto.
Qed.

End TraceFacts.


(** ** The two senders *)

Section SenderFacts.

Local Open Scope list_scope.

Variable w : World.

Lemma ok_not_413 (r : response) : ok r = true -> (status r =? 413)%Z = false.
Proof. unfold ok. intros H. apply andb_true_iff in H as [_ H]. lia. Qed.

Lemma is_413_not_ok (r : response) : (status r =? 413)%Z = true -> ok r = false.
Proof. unfold ok. intros H. apply Z.eqb_eq in H. rewrite H. reflexivity. Qed.

(** One text send, by how its call settles. *)
Lemma sendTelegramMessage_eq (chatId text token : string) (t : list event) :
  let req := sendMessage_request chatId text token in
  let out := telegram w (t ++ [FetchCall req]) req in
  sendTelegramMessage w chatId text token t =
  match out with
  | Rejected e => (Throw e, t ++ [FetchCall req; FetchSettled out])
  | Fulfilled r =>
      if ok r then (Normal tt, t ++ [FetchCall req; FetchSettled out])
      else match text_read r with
           | Fulfilled b =>
               (Normal tt,
                t ++ [FetchCall req; FetchSettled out; failure_log "sendMessage" r b])
           | Rejected e => (Throw e, t ++ [FetchCall req; FetchSettled out])
           end
  end.
Proof.
  intros req out. unfold sendTelegramMessage, bind, Runtime.fetch, await.
  fold req. fold out. destruct out as [r|e]; rewrite <- ?app_assoc; [|reflexivity].
  destruct (ok r); cbn [negb]; [reflexivity|].
  unfold response_text. destruct (text_read r) as [b|e]; [|reflexivity].
  unfold ret, console_error, emit. now rewrite <- app_assoc.
Qed.

(** One attachment send, by how its call settles. *)
Lemma sendTelegramDocument_eq (chatId : string) (attachment : Attachment)
  (token : string) (t : list event) :
  let req := sendDocument_request chatId attachment token in
  let out := telegram w (t ++ [FetchCall req]) req in
  sendTelegramDocument w chatId attachment token t =
  match out with
  | Rejected e => (Throw e, t ++ [FetchCall req; FetchSettled out])
  | Fulfilled r =>
      if ok r then (Normal tt, t ++ [FetchCall req; FetchSettled out])
      else match text_read r with
           | Rejected e => (Throw e, t ++ [FetchCall req; FetchSettled out])
           | Fulfilled b =>
               let logged :=
                 t ++ [FetchCall req; FetchSettled out; failure_log "sendDocument" r b] in
               if (status r =? 413)%Z then
                 sendTelegramMessage w chatId (oversize_notice (fileName_of attachment))
                   token logged
               else (Normal tt, logged)
           end
  end.
Proof.
  intros req out. unfold sendTelegramDocument, bind, Runtime.fetch, await.
  fold req. fold out. destruct out as [r|e]; rewrite <- ?app_assoc; [|reflexivity].
  destruct (ok r); cbn [negb]; [reflexivity|].
  unfold response_text. destruct (text_read r) as [b|e]; [|reflexivity].
  unfold ret at 1. unfold console_error, emit. rewrite <- app_assoc. cbn [app].
  destruct (status r =? 413)%Z; reflexivity.
Qed.

Lemma always_answers_inv (t : list event) (req : request) (out : settled response) :
  always_answers w -> telegram w t req = out ->
  exists s b, out = Fulfilled (mkResponse s (Fulfilled b)).
Proof. intros A E. destruct (A t req) as (s & b & E'). exists s, b. congruence. Qed.

(** One text send: its call, settled, then console output at most; it
    returns normally when the API answers. *)
Lemma sendTelegramMessage_run (chatId text token : string) (t : list event) :
  let req := sendMessage_request chatId text token in
  exists c logs,
    sendTelegramMessage w chatId text token t =
      (c, t ++ [FetchCall req; FetchSettled (telegram w (t ++ [FetchCall req]) req)]
            ++ logs) /\
    only_console logs = true /\
    (always_answers w -> c = Normal tt).
Proof.
  intros req. rewrite sendTelegramMessage_eq. fold req.
  destruct (telegram w (t ++ [FetchCall req]) req) as [r|e] eqn:E.
  - destruct (ok r).
    + exists (Normal tt), []. auto.
    + destruct (text_read r) as [b|e] eqn:Eb.
      * exists (Normal tt), [failure_log "sendMessage" r b]. auto.
      * exists (Throw e), []. repeat split. intros A.
        destruct (always_answers_inv _ _ _ A E) as (s & b & [= ->]). discriminate Eb.
  - exists (Throw e), []. repeat split. intros A.
    destruct (always_answers_inv _ _ _ A E) as (s & b & [=]).
Qed.

(** One attachment send: its calls are [attachment_calls] of how the
    document call settled, each settled before the next event. *)
Lemma sendTelegramDocument_run (chatId : string) (attachment : Attachment)
  (token : string) (t : list event) :
  let req := sendDocument_request chatId attachment token in
  let out := telegram w (t ++ [FetchCall req]) req in
  exists c delta,
    sendTelegramDocument w chatId attachment token t = (c, t ++ delta) /\
    fetch_calls delta = attachment_calls chatId token (attachment, out) /\
    awaited delta = true /\
    ai_calls delta = [] /\
    (always_answers w -> c = Normal tt).
Proof.
  intros req out. rewrite sendTelegramDocument_eq. fold req. fold out.
  unfold attachment_calls, sends_notice. fold req.
  destruct out as [r|e] eqn:E.
  - destruct (ok r) eqn:Hok.
    + rewrite (ok_not_413 _ Hok). cbn [andb].
      exists (Normal tt). eexists. split; [reflexivity|]. repeat split.
    + destruct (text_read r) as [b|e] eqn:Eb.
      * cbv zeta. destruct (status r =? 413)%Z eqn:H413; cbn [andb].
        -- match goal with
           | |- context [sendTelegramMessage w ?c ?x ?k ?t0] =>
               destruct (sendTelegramMessage_run c x k t0) as (c' & logs & E' & Hlogs & Hc)
           end.
           rewrite E'. exists c'. eexists. split.
           ++ rewrite <- !app_assoc. cbn [app]. reflexivity.
           ++ cbn [fetch_calls ai_calls awaited app].
              rewrite (only_console_fetch_calls _ Hlogs), (only_console_ai_calls _ Hlogs).
              repeat split; [now apply only_console_awaited | exact Hc].
        -- exists (Normal tt). eexists. split; [reflexivity|]. repeat split.
      * rewrite andb_false_r.
        exists (Throw e). eexists. split; [reflexivity|]. repeat split.
        intros A. destruct (always_answers_inv _ _ _ A E) as (s & b & [= ->]).
        discriminate Eb.
  - exists (Throw e). eexists. split; [reflexivity|]. repeat split.
    intros A. destruct (always_answers_inv _ _ _ A E) as (s & b & [=]).
Qed.

End SenderFacts.

Section MethodFacts.

Lemma reverse_app (a b : string) : reverse (a ++ b) = reverse b ++ reverse a.
Proof.
  induction a as [|c a IH]; simpl.
  - now rewrite append_nil_r.
  - now rewrite IH, append_assoc.
Qed.

Lemma prefix_app (p x : string) : prefix p (p ++ x) = true.
Proof.
  induction p as [|c p IH]; simpl.
  - now destruct x.
  - destruct (ascii_dec c c); [exact IH | congruence].
Qed.

Lemma endsWith_app (a p : string) : endsWith (a ++ p) p = true.
Proof. unfold endsWith. rewrite reverse_app. apply prefix_app. Qed.


Lemma sendMessage_request_method (chatId text token : string) :
  calls_method "sendMessage" (sendMessage_request chatId text token) = true.
Proof.
  unfold calls_method, sendMessage_request. cbn [url].
  rewrite <- append_assoc. apply endsWith_app.
Qed.


Lemma fetch_calls_In (r : request) (l : list event) :
  In r (fetch_calls l) -> In (FetchCall r) l.
Proof.
  induction l as [|e l IH]; simpl; [tauto|].
  destruct e; simpl; intros H; try (right; auto; fail).
  destruct H as [->|H]; [now left | right; auto].
Qed.

Lemma fetch_calls_In_inv (r : request) (l : list event) :
  In (FetchCall r) l -> In r (fetch_calls l).
Proof.
  induction l as [|e l IH]; simpl; [tauto|].
  intros [->|H]; [now left|]. destruct e; simpl; auto.
Qed.


End MethodFacts.





(** C10. Whenever a 413 is followed by a notice, the notice is issued by
    sendTelegramMessage: it is a sendMessage call built like every
    notification, so its body carries the same [reply_markup], the inline
    keyboard with the Dismiss button.  The attachment send makes no other
    call besides its own, and the notice is sent whenever the body of the
    413 response is read. *)
Theorem oversize_notice_carries_dismiss (w : World) (chatId : string)
  (attachment : Attachment) (token : string) (t : list event) :
  let req := sendDocument_request chatId attachment token in
  let out := telegram w (t ++ [FetchCall req])%list req in
  let notice :=
    sendMessage_request chatId (oversize_notice (fileName_of attachment)) token in
  forall resp : response,
  out = Fulfilled resp ->
  status resp = 413%Z ->
  exists c delta,
    sendTelegramDocument w chatId attachment token t = (c, (t ++ delta)%list) /\
    (forall r, In (FetchCall r) delta -> r = req \/ r = notice) /\
    (forall body : string, text_read resp = Fulfilled body -> In (FetchCall notice) delta) /\
    calls_method "sendMessage" notice = true /\
    json_field "reply_markup" notice = Some dismiss_keyboard /\
    (forall text : string,
        json_field "reply_markup" (sendMessage_request chatId text token)
        = json_field "reply_markup" notice) /\
    lookup "inline_keyboard" (match dismiss_keyboard with JObj f => f | _ => [] end)
      = Some (JArr [JArr [JObj [("text", JStr "🗑️ Dismiss Email");
                                ("callback_data", JStr "dismiss")]]]).
Proof.
  intros req out notice resp Eout H413.
  destruct (sendTelegramDocument_run w chatId attachment token t)
    as (c & delta & E & Hcalls & _).
  fold req in Hcalls. fold out in Hcalls. rewrite Eout in Hcalls.
  unfold attachment_calls, sends_notice in Hcalls. fold req in Hcalls.
  fold notice in Hcalls. rewrite H413 in Hcalls. cbn [Z.eqb Pos.eqb andb] in Hcalls.
  exists c, delta. split; [exact E|]. split; [|split].
  - intros r Hr. apply fetch_calls_In_inv in Hr. rewrite Hcalls in Hr.
    destruct Hr as [<-|Hr]; [now left|].
    destruct (text_read resp); [|contradiction].
    destruct Hr as [<-|[]]. now right.
  - intros body Ebody. apply fetch_calls_In. rewrite Hcalls, Ebody.
    right. left. reflexivity.
  - split; [apply sendMessage_request_method|]. repeat split.
Qed.

(** An unnamed attachment against an API that answers 413. *)
Lemma oversize_notice_carries_dismiss_witness :
  exists c delta,
    sendTelegramDocument (Sample.world 413 Sample.silent) "42" Sample.photo "123:ABC" []
      = (c, delta) /\
    In (FetchCall (sendMessage_request "42" (oversize_notice "unnamed_attachment.bin")
                     "123:ABC")) delta /\
    json_field "reply_markup"
      (sendMessage_request "42" (oversize_notice "unnamed_attachment.bin") "123:ABC")
    = Some dismiss_keyboard.
Proof.
  destruct (oversize_notice_carries_dismiss
              (Sample.world 413 Sample.silent) "42" Sample.photo "123:ABC" []
              (mkResponse 413 (Fulfilled "{}")) eq_refl eq_refl)
    as (c & delta & E & _ & Hin & _ & Hk & _).
  exists c, delta. split; [exact E|]. split; [exact (Hin "{}" eq_refl) | exact Hk].
Defined.

(** ** The summarizer *)

Section SummaryFacts.

Local Open Scope list_scope.

Variable w : World.

Lemma substring0_le (n : nat) (s : string) : String.length (Js.substring0 n s) <= n.
Proof.
  unfold Js.substring0. revert n.
  induction s as [|c s IH]; intros [|n]; simpl; try lia.
  specialize (IH n). lia.
Qed.

(** One run of generateEmailSummary, by what the model answers. *)
Lemma generateEmailSummary_run (text : string) (t : list event) :
  let asked := t ++ [AiCall summary_model (prompt_of text)] in
  let out := model_reply w asked summary_model (prompt_of text) in
  generateEmailSummary w text t =
  match out with
  | AiRejects e =>
      (Normal "Automated summary temporarily unavailable.",
       asked ++ [AiSettled out; ConsoleError ["AI Summarization failed:"; e]])
  | AiResolves (Some (mkAiOutput (Some (String c r)))) =>
      (Normal (Js.trim (String c r)), asked ++ [AiSettled out])
  | AiResolves _ =>
      (Normal "Summary generation yielded no result.", asked ++ [AiSettled out])
  end.
Proof.
  intros asked out. unfold generateEmailSummary, try_catch, bind, AI_run.
  fold (prompt_of text). fold asked. fold out.
  destruct out as [[[[[|c r]|]]|]|e]; try reflexivity.
  unfold console_error, emit, ret. rewrite <- app_assoc. reflexivity.
Qed.

(** The summary step returns, and adds no fetch to the trace. *)
Lemma aiSummary_run (clean : string) (t : list event) :
  exists summary delta,
    aiSummary w clean t = (Normal summary, t ++ delta) /\
    fetch_calls delta = [] /\ awaited delta = true /\
    (String.length clean <= 20 ->
     delta = [] /\ summary = "No content available to summarize.").
Proof.
  unfold aiSummary. destruct (Nat.ltb_spec 20 (String.length clean)) as [L|L].
  - rewrite generateEmailSummary_run.
    destruct (model_reply w _ summary_model (prompt_of clean)) as [[[[[|c r]|]]|]|e];
      eexists; eexists; (split; [rewrite <- app_assoc; reflexivity|]);
      simpl; repeat split; lia.
  - exists "No content available to summarize.", []. rewrite app_nil_r. auto.
Qed.

End SummaryFacts.

(** C9. A normalized text of at most 20 code units, length 20 included,
    is not sent to the model: the summary is the skip text and the trace
    is unchanged.  A longer text goes to generateEmailSummary, which calls
    the model once. *)
Theorem summary_skipped_up_to_20 (w : World) (clean : string) (t : list event) :
  (String.length clean <= 20 ->
   aiSummary w clean t = (Normal "No content available to summarize.", t)) /\
  (20 < String.length clean ->
   aiSummary w clean t = generateEmailSummary w clean t /\
   ai_calls (snd (aiSummary w clean t))
   = (ai_calls t ++ [(summary_model, prompt_of clean)])%list).
Proof.
  unfold aiSummary. split; intros H.
  - destruct (Nat.ltb_spec 20 (String.length clean)); [lia | reflexivity].
  - destruct (Nat.ltb_spec 20 (String.length clean)); [|lia].
    split; [reflexivity|]. rewrite generateEmailSummary_run.
    destruct (model_reply w _ summary_model (prompt_of clean)) as [[[[[|c r]|]]|]|e];
      simpl; rewrite !ai_calls_app; simpl; now rewrite ?app_nil_r.
Qed.

(** Texts of 20 and of 21 code units. *)
Lemma summary_skipped_up_to_20_witness :
  aiSummary (Sample.world 200 (AiResolves (Some (mkAiOutput (Some "A summary.")))))
    "12345678901234567890" []
  = (Normal "No content available to summarize.", []) /\
  ai_calls (snd (aiSummary (Sample.world 200 (AiResolves (Some (mkAiOutput (Some "A summary.")))))
                   "123456789012345678901" []))
  = [(summary_model, prompt_of "123456789012345678901")].
Proof.
  split.
  - apply (proj1 (summary_skipped_up_to_20 _ "12345678901234567890" [])). simpl. lia.
  - apply (proj2 (summary_skipped_up_to_20 _ "123456789012345678901" [])). simpl. lia.
Defined.

(** C4, as the code has it.  The summary step is a total case analysis.
    A text of at most 20 code units gives the skip text without a call.
    A longer text is sent to the model cut to its first 2000 code units;
    the result is the trimmed output when the output is a non-empty
    text, the no-result text when the output is empty or absent, the
    unavailable text when the call fails.  The step always returns, and
    the summary is non-empty whenever the trimmed output is. *)
Theorem summary_case_analysis (w : World) (clean : string) (t : list event) :
  let asked := (t ++ [AiCall summary_model (prompt_of clean)])%list in
  let out := model_reply w asked summary_model (prompt_of clean) in
  (String.length clean <= 20 ->
   aiSummary w clean t = (Normal "No content available to summarize.", t)) /\
  (20 < String.length clean ->
   prompt_of clean = [mkAiMessage "system" summary_instruction;
                      mkAiMessage "user" (Js.substring0 2000 clean)] /\
   String.length (Js.substring0 2000 clean) <= 2000 /\
   aiSummary w clean t =
   match out with
   | AiRejects e =>
       (Normal "Automated summary temporarily unavailable.",
        (asked ++ [AiSettled out; ConsoleError ["AI Summarization failed:"; e]])%list)
   | AiResolves (Some (mkAiOutput (Some (String c r)))) =>
       (Normal (Js.trim (String c r)), (asked ++ [AiSettled out])%list)
   | AiResolves _ =>
       (Normal "Summary generation yielded no result.", (asked ++ [AiSettled out])%list)
   end) /\
  (exists summary t', aiSummary w clean t = (Normal summary, t')) /\
  (forall summary t',
      aiSummary w clean t = (Normal summary, t') ->
      (forall c r, 20 < String.length clean ->
                   out = AiResolves (Some (mkAiOutput (Some (String c r)))) ->
                   Js.trim (String c r) <> "") ->
      summary <> "").
Proof.
  intros asked out.
  assert (Hlong : 20 < String.length clean ->
                  aiSummary w clean t = generateEmailSummary w clean t).
  { intros H. unfold aiSummary.
    destruct (Nat.ltb_spec 20 (String.length clean)); [reflexivity | lia]. }
  assert (Hshort : String.length clean <= 20 ->
                   aiSummary w clean t = (Normal "No content available to summarize.", t)).
  { intros H. unfold aiSummary.
    destruct (Nat.ltb_spec 20 (String.length clean)); [lia | reflexivity]. }
  split; [exact Hshort|]. split; [|split].
  - intros H. split; [reflexivity|]. split; [apply substring0_le|].
    rewrite (Hlong H). apply generateEmailSummary_run.
  - destruct (aiSummary_run w clean t) as (summary & delta & E & _).
    now exists summary, (t ++ delta)%list.
  - intros summary t' E Htrim.
    destruct (Nat.ltb_spec 20 (String.length clean)) as [L|L].
    + rewrite (Hlong L), generateEmailSummary_run in E. fold asked in E. fold out in E.
      specialize (fun c r => Htrim c r L).
      destruct out as [[[[[|c r]|]]|]|e]; injection E as <- _; try discriminate.
      now apply (Htrim c r).
    + rewrite (Hshort L) in E. injection E as <- _. discriminate.
Qed.

(** A short text, and a text of 21 code units with a model that fails. *)
Lemma summary_case_analysis_witness :
  aiSummary (Sample.world 200 (AiRejects "timeout")) "Hello world" []
  = (Normal "No content available to summarize.", []) /\
  (exists t',
      aiSummary (Sample.world 200 (AiRejects "timeout")) "123456789012345678901" []
      = (Normal "Automated summary temporarily unavailable.", t')).
Proof.
  split.
  - apply (proj1 (summary_case_analysis _ "Hello world" [])). simpl. lia.
  - destruct (proj1 (proj2 (summary_case_analysis
                              (Sample.world 200 (AiRejects "timeout"))
                              "123456789012345678901" [])))
      as (_ & _ & E); [simpl; lia|].
    eexists. exact E.
Defined.

(** C4 as stated fails twice: a text of exactly 20 code units, which is
    at the threshold, is not sent to the model; and a model output of
    white space only gives the empty summary. *)
Lemma summary_not_total_as_stated :
  (String.length "12345678901234567890" = 20 /\
   aiSummary (Sample.world 200 (AiResolves (Some (mkAiOutput (Some "A summary.")))))
     "12345678901234567890" []
   = (Normal "No content available to summarize.", [])) /\
  (exists t',
      aiSummary (Sample.world 200 (AiResolves (Some (mkAiOutput (Some "  ")))))
        "123456789012345678901" []
      = (Normal "", t')).
Proof.
  split; [split; reflexivity|]. eexists. reflexivity.
Qed.


(** ** onEmail *)

Section OnEmailFacts.

Local Open Scope list_scope.

Variable w : World.


Lemma attachment_calls_known (chatId token : string) (a : Attachment)
  (atts : list Attachment) (out : settled response) :
  Forall (attachment_call chatId token (a :: atts))
    (attachment_calls chatId token (a, out)).
Proof.
  cbn [attachment_calls]. constructor.
  - exists a. split; [now left | now left].
  - destruct (sends_notice out); constructor; [|constructor].
    exists a. split; [now left | now right].
Qed.

Lemma attachment_call_more (chatId token : string) (a : Attachment)
  (atts : list Attachment) (req : request) :
  attachment_call chatId token atts req ->
  attachment_call chatId token (a :: atts) req.
Proof. intros (x & Hx & H). exists x. split; [now right | exact H]. Qed.


Lemma attachment_calls_all_known (chatId token : string) (atts : list Attachment) :
  forall outs : list (settled response),
    Forall (attachment_call chatId token atts)
      (flat_map (attachment_calls chatId token) (combine atts outs)).
Proof.
  induction atts as [|a atts IH]; intros [|o outs].
  1-3: constructor.
  cbn [combine flat_map]. apply Forall_app. split.
  - apply attachment_calls_known.
  - eapply Forall_impl; [|apply IH]. intros r. apply attachment_call_more.
Qed.

Lemma attachment_calls_length (chatId token : string) (atts : list Attachment) :
  forall outs : list (settled response),
    List.length outs <= List.length atts ->
    List.length outs
    <= List.length (flat_map (attachment_calls chatId token) (combine atts outs))
    <= 2 * List.length outs.
Proof.
  induction atts as [|a atts IH]; intros [|o outs] H; simpl in *; try lia.
  specialize (IH outs ltac:(lia)). rewrite length_app.
  destruct (sends_notice o); simpl; lia.
Qed.

(** The loop sends the attachments one after the other, whatever the
    statuses, until a call or a body read is rejected: [outs] is how the
    document calls it made settled. *)
Lemma attachment_loop_run (chatId token : string) (atts : list Attachment) :
  forall t : list event,
  exists c delta outs,
    for_of atts (fun a => sendTelegramDocument w chatId a token) t = (c, t ++ delta) /\
    List.length outs <= List.length atts /\
    fetch_calls delta = flat_map (attachment_calls chatId token) (combine atts outs) /\
    (c = Normal tt -> List.length outs = List.length atts) /\
    (always_answers w -> c = Normal tt) /\
    awaited delta = true /\
    ai_calls delta = [].
Proof.
  induction atts as [|a atts IH]; intros t.
  - exists (Normal tt), [], []. simpl. unfold ret. rewrite app_nil_r.
    repeat split; auto.
  - destruct (sendTelegramDocument_run w chatId a token t)
      as (c1 & d1 & E1 & C1 & A1 & I1 & N1).
    simpl for_of. unfold bind. rewrite E1. destruct c1 as [[]|e].
    + destruct (IH (t ++ d1)) as (c & d2 & outs & E2 & Hk & F2 & Hn & Ha & A2 & I2).
      exists c, (d1 ++ d2).
      exists (telegram w (t ++ [FetchCall (sendDocument_request chatId a token)])
                (sendDocument_request chatId a token) :: outs).
      rewrite E2, app_assoc.
      split; [reflexivity|]. split; [simpl; lia|]. split.
      * rewrite fetch_calls_app, C1, F2. reflexivity.
      * split; [intros H; simpl; f_equal; auto|]. split; [exact Ha|].
        split; [now apply awaited_app|]. now rewrite ai_calls_app, I1, I2.
    + exists (Throw e), d1.
      exists [telegram w (t ++ [FetchCall (sendDocument_request chatId a token)])
                (sendDocument_request chatId a token)].
      split; [reflexivity|]. split; [simpl; lia|]. split.
      * rewrite C1. cbn [combine flat_map]. now rewrite combine_nil, app_nil_r.
      * split; [discriminate|]. split; [intros A; discriminate (N1 A)|].
        split; [exact A1 | exact I1].
Qed.

Lemma sendAttachments_run (chatId : string) (email : AgentEmail) (token : string)
  (t : list event) :
  let atts := attachments_of (parsed email) in
  exists c delta outs,
    sendAttachments w chatId email token t = (c, t ++ delta) /\
    List.length outs <= List.length atts /\
    fetch_calls delta = flat_map (attachment_calls chatId token) (combine atts outs) /\
    (c = Normal tt -> List.length outs = List.length atts) /\
    (always_answers w -> c = Normal tt) /\
    awaited delta = true /\
    ai_calls delta = [].
Proof.
  unfold sendAttachments, attachments_of, attachmentCount.
  destruct (attachments (parsed email)) as [l|].
  - destruct l as [|a l].
    + exists (Normal tt), [], []. simpl. unfold ret. rewrite app_nil_r.
      repeat split; auto.
    + change (0 <? List.length (a :: l))%nat with true. cbv iota.
      apply attachment_loop_run.
  - exists (Normal tt), [], []. simpl. unfold ret. rewrite app_nil_r.
    repeat split; auto.
Qed.


(** The run of onEmail on a routed email with the credential: the
    summary step, the notification, then the attachments while nothing
    is rejected. *)
Lemma onEmail_routed_run (env : Env) (email : AgentEmail) (chatId : string)
  (t : list event) :
  Resolver.chatId_of (to email) = Some chatId ->
  TELEGRAM_BOT_TOKEN env <> "" ->
  let token := TELEGRAM_BOT_TOKEN env in
  let atts := attachments_of (parsed email) in
  exists summary c d1 d2 outs,
    aiSummary w (cleanTextBody (parsed email)) t = (Normal summary, t ++ d1) /\
    onEmail w env email t = (c, t ++ d1 ++ d2) /\
    fetch_calls d1 = [] /\ awaited d1 = true /\
    ai_calls d2 = [] /\ awaited d2 = true /\
    fetch_calls d2
    = sendMessage_request chatId
        (messagePayload email (Js.toLowerCase (to email)) summary
           (snippet (cleanTextBody (parsed email)))) token
      :: flat_map (attachment_calls chatId token) (combine atts outs) /\
    List.length outs <= List.length atts /\
    (c = Normal tt -> List.length outs = List.length atts) /\
    (always_answers w -> c = Normal tt).
Proof.
  intros Hroute Htoken token atts. unfold Resolver.chatId_of in Hroute.
  unfold onEmail. rewrite Hroute. fold token.
  assert (Htruthy : Js.truthy (Some token) = true).
  { unfold token. destruct (TELEGRAM_BOT_TOKEN env); [congruence | reflexivity]. }
  rewrite Htruthy. cbn [negb]. unfold bind.
  destruct (aiSummary_run w (cleanTextBody (parsed email)) t)
    as (summary & d1 & E1 & C1 & A1 & _).
  rewrite E1.
  set (text := messagePayload email (Js.toLowerCase (to email)) summary
                 (snippet (cleanTextBody (parsed email)))).
  destruct (sendTelegramMessage_run w chatId text token (t ++ d1))
    as (c2 & logs & E2 & Hlogs & N2).
  set (out := telegram w _ (sendMessage_request chatId text token)) in E2.
  rewrite E2.
  assert (Hfirst : forall d3,
             fetch_calls (([FetchCall (sendMessage_request chatId text token);
                            FetchSettled out] ++ logs) ++ d3)
             = sendMessage_request chatId text token :: fetch_calls d3).
  { intros d3. rewrite !fetch_calls_app. simpl.
    now rewrite (only_console_fetch_calls _ Hlogs). }
  assert (Hai : forall d3, ai_calls d3 = [] ->
             ai_calls (([FetchCall (sendMessage_request chatId text token);
                         FetchSettled out] ++ logs) ++ d3) = []).
  { intros d3 H. rewrite !ai_calls_app, H. simpl.
    now rewrite (only_console_ai_calls _ Hlogs). }
  assert (Haw : forall d3, awaited d3 = true ->
             awaited (([FetchCall (sendMessage_request chatId text token);
                        FetchSettled out] ++ logs) ++ d3) = true).
  { intros d3 H. apply awaited_app; [|exact H]. simpl. now apply only_console_awaited. }
  destruct c2 as [[]|e].
  - match goal with
    | |- context [sendAttachments w chatId email token ?t0] =>
        destruct (sendAttachments_run chatId email token t0)
          as (c & d3 & outs & E3 & Hk & F3 & Hn & Ha & A3 & I3)
    end.
    rewrite E3. fold atts in Hk, F3, Hn.
    exists summary, c, d1.
    exists (([FetchCall (sendMessage_request chatId text token); FetchSettled out]
               ++ logs) ++ d3).
    exists outs.
    split; [reflexivity|]. split; [now rewrite <- !app_assoc|].
    split; [exact C1|]. split; [exact A1|]. split; [now apply Hai|].
    split; [now apply Haw|]. split; [now rewrite Hfirst, F3|].
    split; [exact Hk|]. split; [exact Hn | exact Ha].
  - exists summary, (Throw e), d1.
    exists (([FetchCall (sendMessage_request chatId text token); FetchSettled out]
               ++ logs) ++ []).
    exists [].
    split; [reflexivity|]. split; [now rewrite app_nil_r, <- !app_assoc|].
    split; [exact C1|]. split; [exact A1|]. split; [now apply Hai|].
    split; [now apply Haw|]. split; [now rewrite Hfirst, combine_nil|].
    split; [simpl; lia|]. split; [discriminate|].
    intros A; discriminate (N2 A).
Qed.

Lemma world_always_answers (s : Z) (out : ai_outcome) :
  always_answers (Sample.world s out).
Proof. intros h req. exists s, "{}". reflexivity. Qed.

End OnEmailFacts.




(** C7. An email whose recipient address yields no token makes onEmail
    return normally after one console warning: no fetch, no AI call, no
    error. *)
Theorem onEmail_drops_unrouted (w : World) (env : Env) (email : AgentEmail)
  (t : list event) :
  Resolver.chatId_of (to email) = None ->
  exists delta,
    onEmail w env email t = (Normal tt, (t ++ delta)%list) /\
    delta = [ConsoleWarn ["Dropped email: No chat ID found in recipient address";
                          Js.toLowerCase (to email)]] /\
    fetch_calls delta = [] /\
    ai_calls delta = [].
Proof.
  intros H. unfold Resolver.chatId_of in H. unfold onEmail. rewrite H.
  eexists. split; [reflexivity|]. repeat split.
Qed.

(** Scenario 2 of the specification: an address without sub-address. *)
Lemma onEmail_drops_unrouted_witness :
  exists delta,
    onEmail (Sample.world 200 Sample.silent) Sample.env
      (Sample.mail "foo@domain.com" "Hello world" [Sample.report]) []
    = (Normal tt, delta) /\
    fetch_calls delta = [] /\ ai_calls delta = [].
Proof.
  destruct (onEmail_drops_unrouted (Sample.world 200 Sample.silent) Sample.env
              (Sample.mail "foo@domain.com" "Hello world" [Sample.report]) [] eq_refl)
    as (delta & E & _ & Hf & Ha).
  exists delta. repeat split; assumption.
Defined.


(** ** Numerals *)

Section NumeralFacts.

Lemma uint_units (d : Decimal.uint) :
  all_units is_numeral_unit (NilEmpty.string_of_uint d) = true.
Proof. induction d; simpl; auto. Qed.

Lemma number_toString_units (z : Z) :
  all_units is_numeral_unit (Js.number_toString z) = true /\ Js.number_toString z <> "".
Proof.
  unfold Js.number_toString.
  assert (U : forall d, all_units is_numeral_unit (NilZero.string_of_uint d) = true
                        /\ NilZero.string_of_uint d <> "").
  { intros d. split.
    - destruct d; try reflexivity; apply (uint_units (_ d)).
    - destruct d; discriminate. }
  destruct (Z.to_int z) as [d|d]; simpl.
  - apply U.
  - split; [apply U | discriminate].
Qed.

(** The numeral of an integer denotes that integer. *)
Lemma number_toString_value (z : Z) : decimal_value (Js.number_toString z) = Some z.
Proof.
  unfold decimal_value, Js.number_toString.
  rewrite NilZero.isi.
  - simpl. now rewrite DecimalZ.of_to.
  - destruct z; simpl; try discriminate.
    intros [= E]. now apply (DecimalPos.Unsigned.to_uint_nonnil p).
  - destruct z; simpl; try discriminate.
    intros [= E]. now apply (DecimalPos.Unsigned.to_uint_nonnil p).
Qed.

Lemma number_toString_inj (a b : Z) :
  Js.number_toString a = Js.number_toString b -> a = b.
Proof.
  intros H. pose proof (number_toString_value a) as Ha.
  rewrite H, number_toString_value in Ha. congruence.
Qed.

End NumeralFacts.

(** ** The webhook *)

Section WebhookFacts.

Local Open Scope list_scope.





Lemma welcome_request_method (env : Env) (chatId : Worker.value) (address : string) :
  calls_method "sendMessage" (Worker.welcome_request env chatId address) = true.
Proof.
  unfold calls_method, Worker.welcome_request. cbn [url].
  rewrite <- append_assoc. apply endsWith_app.
Qed.

Lemma deleteMessage_request_method (env : Env) (chatId messageId : Worker.value) :
  calls_method "deleteMessage" (Worker.deleteMessage_request env chatId messageId) = true.
Proof.
  unfold calls_method, Worker.deleteMessage_request. cbn [url].
  rewrite <- append_assoc. apply endsWith_app.
Qed.

Variable w : World.
Variable env : Env.

(** The handler's [catch] turns a throw into the 500 reply, after one
    console line. *)
Lemma fetch_of_process (request : Worker.Request) (t : list event) :
  is_webhook request = true ->
  Worker.fetch w request env t =
  match Worker.process w request env t with
  | (Normal reply, t') => (Normal reply, t')
  | (Throw e, t') =>
      (Normal failure_reply, t' ++ [ConsoleError ["Failed to process webhook:"; e]])
  end.
Proof.
  intros Hw. unfold Worker.fetch. unfold is_webhook in Hw. rewrite Hw.
  unfold try_catch. destruct (Worker.process w request env t) as [[reply|e] t'];
    reflexivity.
Qed.





(** The reads of the handler leave the trace alone. *)
Lemma get_run (v : Worker.value) (key : string) :
  (exists x, forall t, Worker.get v key t = (Normal x, t)) \/
  (exists e, forall t, Worker.get v key t = (Throw e, t)).
Proof.
  destruct v as [[]|]; try (left; eexists; intros; reflexivity);
    right; eexists; intros; reflexivity.
Qed.

Lemma get_optional_run (v : Worker.value) (key : string) :
  (exists x, forall t, Worker.get_optional v key t = (Normal x, t)) \/
  (exists e, forall t, Worker.get_optional v key t = (Throw e, t)).
Proof.
  destruct v as [[]|]; try (left; eexists; intros; reflexivity);
    right; eexists; intros; reflexivity.
Qed.

Lemma template_text_run (v : Worker.value) :
  (exists x, forall t, Worker.template_text v t = (Normal x, t)) \/
  (exists e, forall t, Worker.template_text v t = (Throw e, t)).
Proof.
  unfold Worker.template_text. destruct v as [j|]; [|left; eexists; intros; reflexivity].
  destruct (Worker.json_text j); [left | right]; eexists; intros; reflexivity.
Qed.

Lemma trim_call_run (v : Worker.value) :
  (exists x, forall t, Worker.trim_call v t = (Normal x, t)) \/
  (exists e, forall t, Worker.trim_call v t = (Throw e, t)).
Proof.
  destruct v as [[]|]; try (right; eexists; intros; reflexivity).
  left; eexists; intros; reflexivity.
Qed.

(** Either branch on any values: no call and a return or a throw, or
    one call, awaited, and a throw exactly when it is rejected. *)
Lemma on_message_any (update : json) (t : list event) :
  exists c delta,
    Worker.on_message w env update t = (c, t ++ delta) /\
    ((delta = [] /\ (c = Normal Worker.OK \/ exists e, c = Throw e)) \/
     (exists req,
         calls_method "sendMessage" req = true /\
         delta = [FetchCall req; FetchSettled (telegram w (t ++ [FetchCall req]) req)] /\
         c = match telegram w (t ++ [FetchCall req]) req with
             | Fulfilled _ => Normal Worker.OK
             | Rejected e => Throw e
             end)).
Proof.
  assert (Hthrow : forall e, exists c delta,
             (Throw e : completion Worker.Response, t) = (c, t ++ delta) /\
             ((delta = [] /\ (c = Normal Worker.OK \/ exists e, c = Throw e)) \/
              (exists req,
                  calls_method "sendMessage" req = true /\
                  delta = [FetchCall req;
                           FetchSettled (telegram w (t ++ [FetchCall req]) req)] /\
                  c = match telegram w (t ++ [FetchCall req]) req with
                      | Fulfilled _ => Normal Worker.OK
                      | Rejected e => Throw e
                      end))).
  { intros e. exists (Throw e), []. rewrite app_nil_r. split; [reflexivity|].
    left. split; [reflexivity | right; now exists e]. }
  assert (Hok : exists c delta,
             (Normal Worker.OK, t) = (c, t ++ delta) /\
             ((delta = [] /\ (c = Normal Worker.OK \/ exists e, c = Throw e)) \/
              (exists req,
                  calls_method "sendMessage" req = true /\
                  delta = [FetchCall req;
                           FetchSettled (telegram w (t ++ [FetchCall req]) req)] /\
                  c = match telegram w (t ++ [FetchCall req]) req with
                      | Fulfilled _ => Normal Worker.OK
                      | Rejected e => Throw e
                      end))).
  { exists (Normal Worker.OK), []. rewrite app_nil_r. split; [reflexivity|].
    left. split; [reflexivity | now left]. }
  unfold Worker.on_message, bind.
  destruct (get_run (Some update) "message") as [[message E]|[e E]]; rewrite E;
    [|apply Hthrow].
  destruct (get_optional_run message "text") as [[text E1]|[e E1]]; rewrite E1;
    [|apply Hthrow].
  destruct (Worker.truthy text); [|exact Hok].
  destruct (get_run message "chat") as [[chat E2]|[e E2]]; rewrite E2; [|apply Hthrow].
  cbn [andb]. destruct (Worker.truthy chat); [|exact Hok].
  destruct (get_run chat "id") as [[chatId E3]|[e E3]]; rewrite E3; [|apply Hthrow].
  destruct (trim_call_run text) as [[trimmed E4]|[e E4]]; rewrite E4; [|apply Hthrow].
  destruct (Js.startsWith trimmed "/start"); [|exact Hok].
  destruct (template_text_run chatId) as [[chatText E5]|[e E5]]; rewrite E5;
    [|apply Hthrow].
  unfold Runtime.fetch, await.
  set (req := Worker.welcome_request env chatId (Worker.userEmail env chatText)).
  exists (match telegram w (t ++ [FetchCall req]) req with
          | Fulfilled _ => Normal Worker.OK
          | Rejected e => Throw e
          end).
  exists [FetchCall req; FetchSettled (telegram w (t ++ [FetchCall req]) req)].
  split.
  - destruct (telegram w (t ++ [FetchCall req]) req); unfold ret;
      now rewrite <- app_assoc.
  - right. exists req. split; [apply welcome_request_method | now split].
Qed.

Lemma on_callback_any (query message : Worker.value) (t : list event) :
  exists c delta,
    Worker.on_callback w env query message t = (c, t ++ delta) /\
    ((delta = [] /\ (c = Normal Worker.OK \/ exists e, c = Throw e)) \/
     (exists req,
         calls_method "deleteMessage" req = true /\
         delta = [FetchCall req; FetchSettled (telegram w (t ++ [FetchCall req]) req)] /\
         c = match telegram w (t ++ [FetchCall req]) req with
             | Fulfilled _ => Normal Worker.OK
             | Rejected e => Throw e
             end)).
Proof.
  assert (Hthrow : forall e, exists c delta,
             (Throw e : completion Worker.Response, t) = (c, t ++ delta) /\
             ((delta = [] /\ (c = Normal Worker.OK \/ exists e, c = Throw e)) \/
              (exists req,
                  calls_method "deleteMessage" req = true /\
                  delta = [FetchCall req;
                           FetchSettled (telegram w (t ++ [FetchCall req]) req)] /\
                  c = match telegram w (t ++ [FetchCall req]) req with
                      | Fulfilled _ => Normal Worker.OK
                      | Rejected e => Throw e
                      end))).
  { intros e. exists (Throw e), []. rewrite app_nil_r. split; [reflexivity|].
    left. split; [reflexivity | right; now exists e]. }
  unfold Worker.on_callback, bind.
  destruct (get_run message "chat") as [[chat E]|[e E]]; rewrite E; [|apply Hthrow].
  destruct (get_run chat "id") as [[chatId E1]|[e E1]]; rewrite E1; [|apply Hthrow].
  destruct (get_run message "message_id") as [[messageId E2]|[e E2]]; rewrite E2;
    [|apply Hthrow].
  destruct (get_run query "data") as [[data E3]|[e E3]]; rewrite E3; [|apply Hthrow].
  destruct (Worker.is_dismiss data).
  - unfold Runtime.fetch, await.
    set (req := Worker.deleteMessage_request env chatId messageId).
    exists (match telegram w (t ++ [FetchCall req]) req with
            | Fulfilled _ => Normal Worker.OK
            | Rejected e => Throw e
            end).
    exists [FetchCall req; FetchSettled (telegram w (t ++ [FetchCall req]) req)].
    split.
    + destruct (telegram w (t ++ [FetchCall req]) req); unfold ret;
        now rewrite <- app_assoc.
    + right. exists req. split; [apply deleteMessage_request_method | now split].
  - exists (Normal Worker.OK), []. rewrite app_nil_r. split; [reflexivity|].
    left. split; [reflexivity | now left].
Qed.

(** The body of the [try] on any request. *)
Lemma process_any (request : Worker.Request) (t : list event) :
  exists c delta,
    Worker.process w request env t = (c, t ++ delta) /\
    (Worker.request_body request = None -> delta = [] /\ exists e, c = Throw e) /\
    ((delta = [] /\ (c = Normal Worker.OK \/ exists e, c = Throw e)) \/
     (exists req,
         (calls_method "sendMessage" req = true \/
          calls_method "deleteMessage" req = true) /\
         delta = [FetchCall req; FetchSettled (telegram w (t ++ [FetchCall req]) req)] /\
         c = match telegram w (t ++ [FetchCall req]) req with
             | Fulfilled _ => Normal Worker.OK
             | Rejected e => Throw e
             end)).
Proof.
  assert (Hthrow : forall e, exists c delta,
             (Throw e : completion Worker.Response, t) = (c, t ++ delta) /\
             (Worker.request_body request = None -> delta = [] /\ exists e, c = Throw e) /\
             ((delta = [] /\ (c = Normal Worker.OK \/ exists e, c = Throw e)) \/
              (exists req,
                  (calls_method "sendMessage" req = true \/
                   calls_method "deleteMessage" req = true) /\
                  delta = [FetchCall req;
                           FetchSettled (telegram w (t ++ [FetchCall req]) req)] /\
                  c = match telegram w (t ++ [FetchCall req]) req with
                      | Fulfilled _ => Normal Worker.OK
                      | Rejected e => Throw e
                      end))).
  { intros e. exists (Throw e), []. rewrite app_nil_r. split; [reflexivity|].
    split; [intros _; split; [reflexivity | now exists e]|].
    left. split; [reflexivity | right; now exists e]. }
  unfold Worker.process, bind, Worker.request_json.
  destruct (Worker.request_body request) as [update|]; [|apply Hthrow].
  unfold ret at 1.
  destruct (get_run (Some update) "callback_query") as [[query E]|[e E]]; rewrite E;
    [|apply Hthrow].
  assert (Hmessage :
            (exists x, forall t, (if Worker.truthy query then Worker.get query "message"
                                  else ret query) t = (Normal x, t)) \/
            (exists e, forall t, (if Worker.truthy query then Worker.get query "message"
                                  else ret query) t = (Throw e, t))).
  { destruct (Worker.truthy query); [apply get_run|].
    left. exists query. reflexivity. }
  destruct Hmessage as [[message E1]|[e E1]]; rewrite E1; [|apply Hthrow].
  destruct (Worker.truthy query && Worker.truthy message).
  - destruct (on_callback_any query message t) as (c & delta & Ec & H).
    exists c, delta. split; [exact Ec|]. split; [discriminate|].
    destruct H as [H|(req & Hm & H)]; [now left|].
    right. exists req. split; [now right | exact H].
  - destruct (on_message_any update t) as (c & delta & Ec & H).
    exists c, delta. split; [exact Ec|]. split; [discriminate|].
    destruct H as [H|(req & Hm & H)]; [now left|].
    right. exists req. split; [now left | exact H].
Qed.

End WebhookFacts.




(** ** Concrete runs *)

Example chatId_plain : Resolver.chatId_of "tempmail+42@domain.com" = Some "42".
Proof. reflexivity. Qed.

Example chatId_first_plus_last_at :
  Resolver.chatId_of "a+b+c@d@e.com" = Some "b+c@d".
Proof. reflexivity. Qed.

Example chatId_empty_token : Resolver.chatId_of "tempmail+@domain.com" = None.
Proof. reflexivity. Qed.

Example toFixed_1536 : Js.kilobytes_toFixed2 1536 = "1.50".
Proof. reflexivity. Qed.

Example number_toString_group : Js.number_toString (-1001234567890) = "-1001234567890".
Proof. reflexivity. Qed.

Example file_type_lowercased : Js.file_type_of "Application/PDF" = "application/pdf".
Proof. reflexivity. Qed.

Example escapeHtml_tag : escapeHtml "<a href='x'>R&D</a>"
  = "&lt;a href=&#039;x&#039;&gt;R&amp;D&lt;/a&gt;".
Proof. reflexivity. Qed.

Example strip_markup_tags : Js.strip_markup false "<p>Hi <b>there</b></p" = "Hi there".
Proof. reflexivity. Qed.

(** Scenario 1 of the specification: a short plain-text email to
    [foo+42@domain.com] without attachments gives one sendMessage to chat
    42 with the skip summary, and nothing else. *)
Example scenario_short_mail :
  onEmail (Sample.world 200 Sample.silent) Sample.env
    (Sample.mail "foo+42@domain.com" "Hello world" []) []
  = (Normal tt,
     [FetchCall
        (sendMessage_request "42"
           (messagePayload (Sample.mail "foo+42@domain.com" "Hello world" [])
              "foo+42@domain.com" "No content available to summarize." "Hello world")
           "123:ABC");
      FetchSettled (Fulfilled (mkResponse 200 (Fulfilled "{}")))]).
Proof. reflexivity. Qed.

(** Scenario 4 of the specification: the dismiss callback deletes message
    99 of chat 7 and is answered 200 OK. *)
Example scenario_dismiss :
  Worker.fetch (Sample.world 200 Sample.silent)
    (Sample.post
       (Worker.update_json
          (Worker.mkUpdate 2 None
             (Some (Worker.mkCallbackQuery "q" "dismiss"
                      (Some (Worker.mkCallbackMessage 99 7)))))))
    Sample.env []
  = (Normal (Worker.mkReply "OK" 200),
     [FetchCall (Worker.deleteMessage_request Sample.env
                   (Some (JNum (Js.SafeInt 7))) (Some (JNum (Js.SafeInt 99))));
      FetchSettled (Fulfilled (mkResponse 200 (Fulfilled "{}")))]).
Proof. reflexivity. Qed.

(** A body that is valid JSON and no update: [null] makes the first
    read throw, and the handler answers 500. *)
Example scenario_null_body :
  Worker.fetch (Sample.world 200 Sample.silent) (Sample.post JNull) Sample.env []
  = (Normal (Worker.mkReply "Internal Server Error" 500),
     [ConsoleError ["Failed to process webhook:";
                    "TypeError: Cannot read properties of null (reading 'callback_query')"]]).
Proof. reflexivity. Qed.

(** Two calls issued before either is awaited leave a trace that
    [awaited] refuses: the predicate tells the sends of the agent, each
    awaited where it is issued, from calls in flight together. *)
Example overlapping_calls_not_awaited (w : World) (a b : request) :
  awaited (snd ((p <- Runtime.fetch w a ;; q <- Runtime.fetch w b ;;
                 await p ;;; await q ;;; ret tt) [])) = false.
Proof.
  unfold bind, Runtime.fetch, await. simpl.
  destruct (telegram w [FetchCall a] a); [|reflexivity].
  destruct (telegram w [FetchCall a; FetchCall b] b); reflexivity.
Qed.

(** * Properties beyond the specification *)

(** ** escapeHtml *)

Section EscapeFacts.

Lemma has_unit_app (p : ascii -> bool) (a b : string) :
  has_unit p (a ++ b) = has_unit p a || has_unit p b.
Proof.
  induction a as [|c a IH]; simpl; [reflexivity|].
  now rewrite IH, orb_assoc.
Qed.

Lemma escapeHtml_cons (c : ascii) (r : string) :
  escapeHtml (String c r) = entity c ++ escapeHtml r.
Proof.
  change (String c r) with (String c "" ++ r).
  now rewrite escapeHtml_app, escapeHtml_unit.
Qed.

Lemma entity_no_markup (c : ascii) : has_unit is_markup_unit (entity c) = false.
Proof. destruct c as [[] [] [] [] [] [] [] []]; reflexivity. Qed.

(** The entity of a rewritten character is longer than one unit; any
    other character is its own entity. *)
Lemma entity_length (c : ascii) :
  if is_escaped_unit c then 1 < String.length (entity c)
  else entity c = String c "".
Proof. destruct c as [[] [] [] [] [] [] [] []]; simpl; solve [reflexivity | lia]. Qed.

Lemma entity_cases (c : ascii) :
  c = "&"%char \/ c = "<"%char \/ c = ">"%char \/ c = Js.dquote \/ c = "'"%char \/
  (entity c = String c "" /\ c <> "&"%char).
Proof.
  destruct c as [[] [] [] [] [] [] [] []];
    first [ left; reflexivity
          | right; left; reflexivity
          | right; right; left; reflexivity
          | right; right; right; left; reflexivity
          | right; right; right; right; left; reflexivity
          | right; right; right; right; right; split; [reflexivity | discriminate] ].
Qed.

Lemma entity_app_inj (c d : ascii) (x y : string) :
  entity c ++ x = entity d ++ y -> c = d.
Proof.
  destruct (entity_cases c) as [->|[->|[->|[->|[->|[Ec Hc]]]]]];
  destruct (entity_cases d) as [->|[->|[->|[->|[->|[Ed Hd]]]]]];
  rewrite ?Ec, ?Ed; simpl; intros H;
    try reflexivity; try discriminate H;
    injection H; congruence.
Qed.

Lemma append_inv_head (a x y : string) : a ++ x = a ++ y -> x = y.
Proof. induction a as [|c a IH]; simpl; [auto|]. intros [= H]. auto. Qed.

End EscapeFacts.

(** X1. The result of [escapeHtml] holds none of the characters [<],
    [>], double quote and single quote, whatever the input. *)
Theorem escapeHtml_no_markup (x : string) :
  has_unit is_markup_unit (escapeHtml x) = false.
Proof.
  induction x as [|c r IH]; [reflexivity|].
  now rewrite escapeHtml_cons, has_unit_app, entity_no_markup, IH.
Qed.

Section EscapeLength.

Lemma entity_length_pos (c : ascii) : 1 <= String.length (entity c).
Proof.
  pose proof (entity_length c) as Hc.
  destruct (is_escaped_unit c); [lia | rewrite Hc; simpl; lia].
Qed.

Lemma escapeHtml_length_le (x : string) :
  String.length x <= String.length (escapeHtml x).
Proof.
  induction x as [|c r IH]; [simpl; lia|].
  rewrite escapeHtml_cons, length_append. pose proof (entity_length_pos c).
  simpl. lia.
Qed.

Lemma escapeHtml_same_length (x : string) :
  String.length (escapeHtml x) = String.length x ->
  has_unit is_escaped_unit x = false.
Proof.
  induction x as [|c r IH]; [reflexivity|].
  rewrite escapeHtml_cons, length_append. simpl. intros H.
  pose proof (entity_length c) as Hc. pose proof (escapeHtml_length_le r).
  destruct (is_escaped_unit c); [lia|].
  rewrite Hc in H. simpl in *. apply IH. lia.
Qed.

Lemma escapeHtml_plain (x : string) :
  has_unit is_escaped_unit x = false -> escapeHtml x = x.
Proof.
  induction x as [|c r IH]; [reflexivity|].
  simpl. intros H. apply orb_false_iff in H as [Hc Hr].
  rewrite escapeHtml_cons. pose proof (entity_length c) as E.
  rewrite Hc in E. rewrite E. simpl. f_equal. auto.
Qed.

End EscapeLength.

(** X2. [escapeHtml] never shortens a text, and it returns the text
    unchanged exactly when the text holds none of the five rewritten
    characters. *)
Theorem escapeHtml_fixed_points (x : string) :
  String.length x <= String.length (escapeHtml x) /\
  (escapeHtml x = x <-> has_unit is_escaped_unit x = false).
Proof.
  split; [apply escapeHtml_length_le|]. split.
  - intros E. apply escapeHtml_same_length. now rewrite E.
  - apply escapeHtml_plain.
Qed.

(** X3. [escapeHtml] is injective: two different texts never escape to
    the same text. *)
Theorem escapeHtml_injective (x y : string) :
  escapeHtml x = escapeHtml y -> x = y.
Proof.
  revert y. induction x as [|c r IH]; intros [|d s].
  - reflexivity.
  - rewrite escapeHtml_cons. simpl. intros H.
    pose proof (entity_length d) as Hd.
    destruct (entity d); [|discriminate H].
    destruct (is_escaped_unit d); [simpl in Hd; lia | discriminate Hd].
  - rewrite escapeHtml_cons. simpl. intros H.
    pose proof (entity_length c) as Hc.
    destruct (entity c); [|discriminate H].
    destruct (is_escaped_unit c); [simpl in Hc; lia | discriminate Hc].
  - rewrite !escapeHtml_cons. intros H.
    pose proof (entity_app_inj _ _ _ _ H) as ->.
    apply append_inv_head in H. f_equal. now apply IH.
Qed.

(** Two spellings of one text. *)
Lemma escapeHtml_injective_witness : "a<" ++ "b" = "a" ++ "<b".
Proof. apply (escapeHtml_injective ("a<" ++ "b") ("a" ++ "<b")). reflexivity. Defined.

(** ** The body text *)

Section BodyFacts.

Lemma strip_markup_no_open (inside : bool) (s : string) :
  has_unit (is_unit "<") (Js.strip_markup inside s) = false.
Proof.
  revert inside. induction s as [|c r IH]; intros inside; [reflexivity|].
  simpl. destruct inside.
  - destruct (Ascii.eqb c ">"); apply IH.
  - destruct (Ascii.eqb c "<") eqn:E; [apply IH|].
    simpl. unfold is_unit at 1. rewrite E. apply IH.
Qed.

Lemma strip_markup_plain (s : string) :
  has_unit (is_unit "<") s = false -> Js.strip_markup false s = s.
Proof.
  induction s as [|c r IH]; [reflexivity|].
  simpl. unfold is_unit at 1. intros H. apply orb_false_iff in H as [Hc Hr].
  rewrite Hc. f_equal. auto.
Qed.

(** An opened tag that is never closed takes the rest of the text. *)
Lemma strip_markup_unclosed (s : string) :
  has_unit (is_unit ">") s = false -> Js.strip_markup true s = "".
Proof.
  induction s as [|c r IH]; [reflexivity|].
  simpl. unfold is_unit at 1. intros H. apply orb_false_iff in H as [Hc Hr].
  rewrite Hc. auto.
Qed.

Lemma strip_markup_app (a b : string) :
  has_unit (is_unit "<") a = false ->
  Js.strip_markup false (a ++ b) = a ++ Js.strip_markup false b.
Proof.
  induction a as [|c r IH]; [reflexivity|].
  simpl. unfold is_unit at 1. intros H. apply orb_false_iff in H as [Hc Hr].
  rewrite Hc. f_equal. auto.
Qed.

Lemma trimStart_keeps_absence (p : ascii -> bool) (s : string) :
  has_unit p s = false -> has_unit p (Js.trimStart s) = false.
Proof.
  induction s as [|c r IH]; [reflexivity|].
  intros H. simpl. destruct (Js.is_space c); [|exact H].
  simpl in H. apply orb_false_iff in H as [_ H]. auto.
Qed.

Lemma trimEnd_keeps_absence (p : ascii -> bool) (s : string) :
  has_unit p s = false -> has_unit p (Js.trimEnd s) = false.
Proof.
  induction s as [|c r IH]; [reflexivity|].
  simpl. intros H. apply orb_false_iff in H as [Hc Hr].
  specialize (IH Hr). destruct (Js.trimEnd r) as [|x r'].
  - destruct (Js.is_space c); simpl; [reflexivity | now rewrite Hc].
  - change (has_unit p (String c (String x r')))
      with (p c || has_unit p (String x r')). now rewrite Hc, IH.
Qed.

Lemma trim_keeps_absence (p : ascii -> bool) (s : string) :
  has_unit p s = false -> has_unit p (Js.trim s) = false.
Proof. intros H. now apply trimEnd_keeps_absence, trimStart_keeps_absence. Qed.

End BodyFacts.

(** X4. The tag removal of line 56 leaves no [<] in its result and does
    not touch a text without [<]; a tag that is opened and never closed
    takes everything after it. *)
Theorem strip_markup_removes_tags :
  (forall s : string, has_unit (is_unit "<") (Js.strip_markup false s) = false) /\
  (forall s : string,
      has_unit (is_unit "<") s = false -> Js.strip_markup false s = s) /\
  (forall a b : string,
      has_unit (is_unit "<") a = false ->
      has_unit (is_unit ">") b = false ->
      Js.strip_markup false (a ++ "<" ++ b) = a).
Proof.
  split; [exact (strip_markup_no_open false)|]. split; [exact strip_markup_plain|].
  intros a b Ha Hb. rewrite strip_markup_app by exact Ha.
  simpl. rewrite strip_markup_unclosed by exact Hb. apply append_nil_r.
Qed.

(** A plain text, and a text with an unclosed tag. *)
Lemma strip_markup_removes_tags_witness :
  Js.strip_markup false "2 > 1" = "2 > 1" /\
  Js.strip_markup false ("Hi " ++ "<" ++ "b class=x") = "Hi ".
Proof.
  split.
  - apply (proj1 (proj2 strip_markup_removes_tags)). reflexivity.
  - apply (proj2 (proj2 strip_markup_removes_tags)); reflexivity.
Defined.

(** X5. The normalized body of an email: a non-empty plain text is used
    alone, trimmed, whatever the markup part holds; without one the body
    is the markup part with its tags removed, trimmed, and it holds no
    [<]; with neither part the body is empty. *)
Theorem cleanTextBody_sources (parsed : Email) :
  (forall c r, text parsed = Some (String c r) ->
               cleanTextBody parsed = Js.trim (String c r)) /\
  (forall h, Js.truthy (text parsed) = false -> html parsed = Some h ->
             cleanTextBody parsed = Js.trim (Js.strip_markup false h)) /\
  (Js.truthy (text parsed) = false ->
   has_unit (is_unit "<") (cleanTextBody parsed) = false) /\
  (Js.truthy (text parsed) = false -> html parsed = None ->
   cleanTextBody parsed = "").
Proof.
  unfold cleanTextBody. split; [|split; [|split]].
  - intros c r E. now rewrite E.
  - intros h H E. rewrite E.
    destruct (text parsed) as [[|c r]|]; try discriminate H; simpl;
      now destruct (Js.strip_markup false h).
  - intros H. apply trim_keeps_absence.
    destruct (text parsed) as [[|c r]|]; try discriminate H;
      (destruct (html parsed) as [h|]; simpl; [|reflexivity];
       pose proof (strip_markup_no_open false h) as Hh;
       destruct (Js.strip_markup false h); [reflexivity | exact Hh]).
  - intros H E. rewrite E.
    destruct (text parsed) as [[|c r]|]; try discriminate H; reflexivity.
Qed.

(** A markup-only email, and an email with both parts. *)
Lemma cleanTextBody_sources_witness :
  cleanTextBody (mkEmail None None (Some "<p>Hello <b>you</b></p> ") None) = "Hello you" /\
  cleanTextBody (mkEmail None (Some " Hello ") (Some "<p>Other</p>") None) = "Hello".
Proof.
  split.
  - apply (proj1 (proj2 (cleanTextBody_sources
                           (mkEmail None None (Some "<p>Hello <b>you</b></p> ") None)))
             "<p>Hello <b>you</b></p> "); reflexivity.
  - apply (proj1 (cleanTextBody_sources
                    (mkEmail None (Some " Hello ") (Some "<p>Other</p>") None))
             " "%char "Hello ").
    reflexivity.
Defined.

(** X6. The snippet is never longer than 523 code units (500 of the body
    and the 23 of the marker), it always starts with the body's first 500
    code units, and it is empty exactly when the normalized body is. *)
Theorem snippet_length_bound (clean : string) :
  String.length (snippet clean) <= 523 /\
  (exists rest, snippet clean = Js.substring0 500 clean ++ rest /\
                (rest = "" \/ rest = truncation_marker)) /\
  (snippet clean = "" <-> clean = "").
Proof.
  unfold snippet, snippetLength.
  destruct (Nat.ltb_spec 500 (String.length clean)) as [L|L].
  - split; [|split].
    + rewrite length_append, substring0_length by lia.
      change (String.length ("..." ++ nl ++ "[Message Truncated]")) with 23. lia.
    + eexists. split; [reflexivity|]. right. reflexivity.
    + split; intros E.
      * apply (f_equal String.length) in E.
        rewrite length_append, substring0_length in E by lia. simpl in E. lia.
      * subst clean. simpl in L. lia.
  - rewrite append_nil_r, substring0_all by exact L. split; [lia|]. split.
    + exists "". rewrite append_nil_r. auto.
    + reflexivity.
Qed.

(** ** Routing *)

Section RoutingFacts.

Lemma lower_unit_idem (c : ascii) : Js.lower_unit (Js.lower_unit c) = Js.lower_unit c.
Proof. destruct c as [[] [] [] [] [] [] [] []]; reflexivity. Qed.

Lemma toLowerCase_idem (s : string) : Js.toLowerCase (Js.toLowerCase s) = Js.toLowerCase s.
Proof. induction s as [|c r IH]; simpl; [reflexivity | now rewrite lower_unit_idem, IH]. Qed.

Lemma toLowerCase_nonempty (s : string) : Js.toLowerCase s <> "" -> s <> "".
Proof. destruct s; [auto | discriminate]. Qed.

(** The capture succeeds as soon as some [@] follows a non-empty run
    without line terminator. *)
Lemma capture_to_at_exists (tok post : string) :
  tok <> "" ->
  has_unit Resolver.is_line_terminator tok = false ->
  Resolver.capture_to_at (tok ++ "@" ++ post) <> None.
Proof.
  induction tok as [|c r IH]; [congruence|]. intros _ Hlt.
  simpl in Hlt. apply orb_false_iff in Hlt as [Hc Hr].
  change (String c r ++ "@" ++ post) with (String c (r ++ "@" ++ post)).
  rewrite capture_to_at_cons, Hc. destruct r as [|d r'].
  - change ("" ++ "@" ++ post) with (String "@" post).
    destruct (Resolver.capture_to_at (String "@" post)); discriminate.
  - assert (Hd : String d r' <> "") by discriminate.
    specialize (IH Hd Hr).
    destruct (Resolver.capture_to_at (String d r' ++ "@" ++ post));
      [discriminate | congruence].
Qed.

Lemma match_plus_at_complete (pre tok post : string) :
  tok <> "" ->
  has_unit Resolver.is_line_terminator tok = false ->
  Resolver.match_plus_at (pre ++ "+" ++ tok ++ "@" ++ post) <> None.
Proof.
  intros Hne Hlt. induction pre as [|c pre IH].
  - simpl. pose proof (capture_to_at_exists tok post Hne Hlt) as H.
    change (tok ++ String "@" post) with (tok ++ "@" ++ post).
    destruct (Resolver.capture_to_at (tok ++ "@" ++ post)); [discriminate | congruence].
  - change (String c pre ++ "+" ++ tok ++ "@" ++ post)
      with (String c (pre ++ "+" ++ tok ++ "@" ++ post)).
    cbn [Resolver.match_plus_at].
    destruct (Ascii.eqb c "+"); [|exact IH].
    destruct (Resolver.capture_to_at (pre ++ "+" ++ tok ++ "@" ++ post));
      [discriminate | exact IH].
Qed.

Lemma match_plus_at_token (s tok : string) :
  Resolver.match_plus_at s = Some tok ->
  tok <> "" /\ has_unit Resolver.is_line_terminator tok = false /\
  exists pre post, s = pre ++ "+" ++ tok ++ "@" ++ post.
Proof.
  induction s as [|c r IH]; simpl; [discriminate|].
  destruct (Ascii.eqb_spec c "+") as [->|Hc].
  - destruct (Resolver.capture_to_at r) as [tok'|] eqn:Hr.
    + intros [= ->]. destruct (capture_to_at_sound _ _ Hr) as (Hne & Hlt & post & ->).
      split; [exact Hne|]. split; [exact Hlt|]. now exists "", post.
    + intros H. destruct (IH H) as (Hne & Hlt & pre & post & ->).
      split; [exact Hne|]. split; [exact Hlt|]. now exists (String "+" pre), post.
  - intros H. destruct (IH H) as (Hne & Hlt & pre & post & ->).
    split; [exact Hne|]. split; [exact Hlt|]. now exists (String c pre), post.
Qed.

Lemma numeral_lower (s : string) :
  all_units is_numeral_unit s = true -> Js.toLowerCase s = s.
Proof.
  induction s as [|c r IH]; [reflexivity|].
  simpl. intros H. apply andb_true_iff in H as [Hc Hr].
  rewrite (IH Hr). f_equal. clear - Hc.
  destruct c as [[] [] [] [] [] [] [] []]; try reflexivity; discriminate Hc.
Qed.

Lemma numeral_no_line_terminator (s : string) :
  all_units is_numeral_unit s = true -> has_unit Resolver.is_line_terminator s = false.
Proof.
  induction s as [|c r IH]; [reflexivity|].
  simpl. intros H. apply andb_true_iff in H as [Hc Hr].
  rewrite (IH Hr), orb_false_r. clear - Hc.
  destruct c as [[] [] [] [] [] [] [] []]; try reflexivity; discriminate Hc.
Qed.

(** A numeral ends where the first [@] stands. *)
Lemma numeral_before_at (a b x y : string) :
  all_units is_numeral_unit a = true ->
  all_units is_numeral_unit b = true ->
  a ++ "@" ++ x = b ++ "@" ++ y -> a = b.
Proof.
  revert b. induction a as [|c a IH]; intros [|d b] Ha Hb E.
  - reflexivity.
  - simpl in E, Hb. injection E as E _. subst d. discriminate Hb.
  - simpl in E, Ha. injection E as E _. subst c. discriminate Ha.
  - simpl in E, Ha, Hb. injection E as -> E.
    apply andb_true_iff in Ha as [_ Ha]. apply andb_true_iff in Hb as [_ Hb].
    f_equal. now apply IH.
Qed.

Lemma userEmail_chatId (env : Env) (chatId : Z) :
  has_unit (is_unit "@") (DOMAIN env) = false ->
  Resolver.chatId_of (Worker.userEmail env (Js.number_toString chatId))
  = Some (Js.number_toString chatId).
Proof.
  intros Hdom. destruct (number_toString_units chatId) as [Hnum Hne].
  unfold Worker.userEmail, Resolver.chatId_of.
  change ("tempmail+" ++ Js.number_toString chatId ++ "@" ++ DOMAIN env)
    with ("tempmail" ++ "+" ++ Js.number_toString chatId ++ "@" ++ DOMAIN env).
  rewrite !toLowerCase_app, (numeral_lower _ Hnum).
  rewrite match_plus_at_skip by reflexivity.
  change (Js.toLowerCase "+" ++ Js.number_toString chatId ++
          Js.toLowerCase "@" ++ Js.toLowerCase (DOMAIN env))
    with (String "+" (Js.number_toString chatId ++ "@" ++ Js.toLowerCase (DOMAIN env))).
  cbn [Resolver.match_plus_at Ascii.eqb Bool.eqb].
  rewrite capture_to_at_last; [reflexivity | exact Hne | |].
  - now apply numeral_no_line_terminator.
  - now rewrite has_unit_lower_at.
Qed.

End RoutingFacts.

(** X7. An address is routed exactly when it holds a [+], then a
    non-empty run without line terminator, then an [@]; an empty
    sub-address such as [name+@domain] is a no-route.  The token of a
    routed address holds no line terminator and is in lower case. *)
Theorem routed_iff (to : string) :
  (Resolver.chatId_of to <> None <->
   exists pre tok post,
     to = pre ++ "+" ++ tok ++ "@" ++ post /\ tok <> "" /\
     has_unit Resolver.is_line_terminator tok = false) /\
  (forall tok : string,
      Resolver.chatId_of to = Some tok ->
      has_unit Resolver.is_line_terminator tok = false /\ Js.toLowerCase tok = tok).
Proof.
  unfold Resolver.chatId_of. split; [split|].
  - intros H. destruct (Resolver.match_plus_at (Js.toLowerCase to)) as [tok|] eqn:E;
      [|congruence].
    destruct (match_plus_at_token _ _ E) as (Hne & Hlt & pre & post & Eto).
    destruct (toLowerCase_split _ _ _ Eto) as (pre' & s1 & -> & _ & E1).
    destruct (toLowerCase_plus_inv _ _ E1) as (s2 & -> & E2).
    destruct (toLowerCase_split _ _ _ E2) as (mid & s3 & -> & Emid & E3).
    destruct (toLowerCase_at_inv _ _ E3) as (post' & -> & _).
    exists pre', mid, post'. split; [reflexivity|]. subst tok. split.
    + now apply toLowerCase_nonempty.
    + now rewrite <- has_unit_lower_line_terminator.
  - intros (pre & tok & post & -> & Hne & Hlt).
    rewrite !toLowerCase_app.
    change (Js.toLowerCase "+") with "+". change (Js.toLowerCase "@") with "@".
    apply match_plus_at_complete.
    + destruct tok; [congruence | discriminate].
    + now rewrite has_unit_lower_line_terminator.
  - intros tok E. destruct (match_plus_at_token _ _ E) as (_ & Hlt & pre & post & Eto).
    split; [exact Hlt|].
    destruct (toLowerCase_split _ _ _ Eto) as (_ & s1 & _ & _ & E1).
    destruct (toLowerCase_plus_inv _ _ E1) as (s2 & _ & E2).
    destruct (toLowerCase_split _ _ _ E2) as (mid & _ & _ & <- & _).
    apply toLowerCase_idem.
Qed.

(** X8. The address the webhook issues for a chat routes back to that
    chat.  For a chat identifier that is a safe integer, the handler
    writes the identifier into the address as its decimal numeral, which
    denotes it; when the configured domain holds no [@], the resolver
    returns that numeral for the address. *)
Theorem issued_address_routes_back (env : Env) (chatId : Z) (t : list event) :
  Js.isSafeInteger chatId = true ->
  has_unit (is_unit "@") (DOMAIN env) = false ->
  let numeral := Js.number_toString chatId in
  Worker.template_text (Some (Worker.int_json chatId)) t = (Normal numeral, t) /\
  decimal_value numeral = Some chatId /\
  Resolver.chatId_of (Worker.userEmail env numeral) = Some numeral.
Proof.
  intros _ Hdom numeral. split; [reflexivity|].
  split; [apply number_toString_value | now apply userEmail_chatId].
Qed.

(** A group chat, whose identifier is negative. *)
Lemma issued_address_routes_back_witness :
  Resolver.chatId_of (Worker.userEmail Sample.env "-1001234") = Some "-1001234" /\
  decimal_value "-1001234" = Some (-1001234)%Z.
Proof.
  destruct (issued_address_routes_back Sample.env (-1001234) [] eq_refl eq_refl)
    as (_ & Hv & Hr).
  split; [exact Hr | exact Hv].
Defined.

(** X9. Two chats whose identifiers are safe integers never get the same
    address, whatever the configured domain. *)
Theorem issued_addresses_distinct (env : Env) (a b : Z) :
  Js.isSafeInteger a = true ->
  Js.isSafeInteger b = true ->
  Worker.userEmail env (Js.number_toString a) = Worker.userEmail env (Js.number_toString b) ->
  a = b.
Proof.
  unfold Worker.userEmail. intros _ _ E.
  apply (append_inv_head "tempmail+") in E.
  apply number_toString_inj.
  destruct (number_toString_units a) as [Ha _].
  destruct (number_toString_units b) as [Hb _].
  exact (numeral_before_at _ _ _ _ Ha Hb E).
Qed.

(** The same chat on both sides. *)
Lemma issued_addresses_distinct_witness : 7%Z = 7%Z.
Proof. apply (issued_addresses_distinct Sample.env 7 7); reflexivity. Defined.

(** ** onEmail, end to end *)

Section DispatchFacts.

Local Open Scope list_scope.

Variable w : World.

Lemma aiSummary_ai_calls (clean : string) (t : list event) :
  ai_calls (snd (aiSummary w clean t))
  = ai_calls t ++
    (if (20 <? String.length clean)%nat then [(summary_model, prompt_of clean)] else []).
Proof.
  unfold aiSummary. destruct (20 <? String.length clean)%nat.
  - rewrite generateEmailSummary_run.
    destruct (model_reply w _ summary_model (prompt_of clean)) as [[[[[|c r]|]]|]|e];
      cbn [snd]; rewrite !ai_calls_app; simpl; now rewrite ?app_nil_r.
  - simpl. now rewrite app_nil_r.
Qed.

Lemma attachment_call_chat (chatId token : string) (atts : list Attachment)
  (req : request) :
  attachment_call chatId token atts req -> chat_of req = Some chatId.
Proof. intros (a & _ & [->| ->]); reflexivity. Qed.

End DispatchFacts.

(** X10. A routed email handled without the credential makes onEmail
    throw the configuration error before anything else happens: no model
    call, no fetch, no console output. *)
Theorem onEmail_configuration_error (w : World) (env : Env) (email : AgentEmail)
  (chatId : string) (t : list event) :
  Resolver.chatId_of (to email) = Some chatId ->
  TELEGRAM_BOT_TOKEN env = "" ->
  onEmail w env email t
  = (Throw "TELEGRAM_BOT_TOKEN is not configured in the environment.", t).
Proof.
  intros Hroute Htoken. unfold Resolver.chatId_of in Hroute.
  unfold onEmail. rewrite Hroute, Htoken. reflexivity.
Qed.

(** A long body and a model that would answer, without the credential. *)
Lemma onEmail_configuration_error_witness :
  onEmail (Sample.world 200 (AiResolves (Some (mkAiOutput (Some "A summary.")))))
    (mkEnv "" "example.com")
    (Sample.mail "tempmail+42@example.com" "A body of more than twenty code units."
       [Sample.report]) []
  = (Throw "TELEGRAM_BOT_TOKEN is not configured in the environment.", []).
Proof.
  apply (onEmail_configuration_error _ (mkEnv "" "example.com")
           (Sample.mail "tempmail+42@example.com"
              "A body of more than twenty code units." [Sample.report]) "42" []);
    reflexivity.
Defined.

(** X11. On a routed email with the credential, onEmail calls the model
    at most once: exactly when the normalized body is longer than 20 code
    units, with that body cut to 2000 code units, and before any fetch.
    Whatever the model does, a rejection included, onEmail returns
    normally when the API answers every call. *)
Theorem onEmail_model_use (w : World) (env : Env) (email : AgentEmail)
  (chatId : string) (t : list event) :
  Resolver.chatId_of (to email) = Some chatId ->
  TELEGRAM_BOT_TOKEN env <> "" ->
  let clean := cleanTextBody (parsed email) in
  exists c before after,
    onEmail w env email t = (c, (t ++ before ++ after)%list) /\
    fetch_calls before = [] /\
    ai_calls after = [] /\
    ai_calls before
    = (if (20 <? String.length clean)%nat then [(summary_model, prompt_of clean)] else []) /\
    String.length (Js.substring0 2000 clean) <= 2000 /\
    (always_answers w -> c = Normal tt).
Proof.
  intros Hroute Htoken clean.
  destruct (onEmail_routed_run w env email chatId t Hroute Htoken)
    as (summary & c & d1 & d2 & outs & Es & E & C1 & _ & A2 & _ & _ & _ & _ & Ha).
  exists c, d1, d2. split; [exact E|]. split; [exact C1|]. split; [exact A2|]. split.
  - pose proof (aiSummary_ai_calls w clean t) as H. fold clean in Es.
    rewrite Es in H. cbn [snd] in H. rewrite ai_calls_app in H.
    now apply app_inv_head in H.
  - split; [apply substring0_le | exact Ha].
Qed.

(** A long body with a model that fails, against an API that answers. *)
Lemma onEmail_model_use_witness :
  exists before after,
    onEmail (Sample.world 200 (AiRejects "timeout")) Sample.env
      (Sample.mail "tempmail+42@example.com" "A body of more than twenty code units." [])
      []
    = (Normal tt, (before ++ after)%list) /\
    ai_calls before
    = [(summary_model, prompt_of "A body of more than twenty code units.")] /\
    fetch_calls before = [].
Proof.
  destruct (onEmail_model_use (Sample.world 200 (AiRejects "timeout")) Sample.env
              (Sample.mail "tempmail+42@example.com"
                 "A body of more than twenty code units." [])
              "42" [])
    as (c & before & after & E & Hf & _ & Ha & _ & Hc).
  - reflexivity.
  - discriminate.
  - rewrite (Hc (world_always_answers 200 (AiRejects "timeout"))) in E.
    exists before, after. split; [exact E|]. split; [exact Ha | exact Hf].
Defined.

(** X12. On a routed email with the credential and N attachments,
    onEmail makes at least one and at most 2 N + 1 calls to the Bot API,
    at least N + 1 when it returns normally, and every one of them
    addresses the chat of the recipient address. *)
Theorem onEmail_call_budget (w : World) (env : Env) (email : AgentEmail)
  (chatId : string) (t : list event) :
  Resolver.chatId_of (to email) = Some chatId ->
  TELEGRAM_BOT_TOKEN env <> "" ->
  let n := List.length (attachments_of (parsed email)) in
  exists c delta,
    onEmail w env email t = (c, (t ++ delta)%list) /\
    1 <= List.length (fetch_calls delta) <= 2 * n + 1 /\
    (c = Normal tt -> n + 1 <= List.length (fetch_calls delta)) /\
    Forall (fun req => chat_of req = Some chatId) (fetch_calls delta).
Proof.
  intros Hroute Htoken n.
  destruct (onEmail_routed_run w env email chatId t Hroute Htoken)
    as (summary & c & d1 & d2 & outs & _ & E & C1 & _ & _ & _ & C2 & Hk & Hn & _).
  exists c, (d1 ++ d2)%list. split; [exact E|].
  rewrite fetch_calls_app, C1, C2. cbn [app List.length]. fold n in Hk, Hn.
  pose proof (attachment_calls_length chatId (TELEGRAM_BOT_TOKEN env)
                (attachments_of (parsed email)) outs Hk) as L.
  split; [lia|]. split.
  - intros Hc. specialize (Hn Hc). lia.
  - constructor; [reflexivity|].
    eapply Forall_impl; [|apply attachment_calls_all_known].
    intros r. apply attachment_call_chat.
Qed.

(** Two attachments against an API that answers 413 to every call. *)
Lemma onEmail_call_budget_witness :
  exists c delta,
    onEmail (Sample.world 413 Sample.silent) Sample.env
      (Sample.mail "tempmail+42@example.com" "Hello world" [Sample.report; Sample.photo]) []
    = (c, delta) /\
    1 <= List.length (fetch_calls delta) <= 5 /\
    Forall (fun req => chat_of req = Some "42") (fetch_calls delta).
Proof.
  destruct (onEmail_call_budget (Sample.world 413 Sample.silent) Sample.env
              (Sample.mail "tempmail+42@example.com" "Hello world"
                 [Sample.report; Sample.photo])
              "42" [])
    as (c & delta & E & Hlen & _ & Hchat).
  - reflexivity.
  - discriminate.
  - exists c, delta. split; [exact E|]. split; [simpl in Hlen; lia | exact Hchat].
Defined.

(** X13. Mail sent to the address the webhook issued for a chat whose
    identifier is a safe integer goes to that chat: with a domain free of
    [@] and the credential configured, the first call of onEmail is a
    sendMessage whose [chat_id] is the decimal numeral that denotes the
    identifier, the chat the welcome was addressed to, and every later
    call addresses it too. *)
Theorem issued_address_delivers (w : World) (env : Env) (email : AgentEmail)
  (chatId : Z) (t : list event) :
  Js.isSafeInteger chatId = true ->
  to email = Worker.userEmail env (Js.number_toString chatId) ->
  has_unit (is_unit "@") (DOMAIN env) = false ->
  TELEGRAM_BOT_TOKEN env <> "" ->
  exists c delta first rest,
    onEmail w env email t = (c, (t ++ delta)%list) /\
    fetch_calls delta = first :: rest /\
    calls_method "sendMessage" first = true /\
    chat_of first = Some (Js.number_toString chatId) /\
    chat_of first
    = chat_of (Worker.welcome_request env (Some (Worker.int_json chatId)) (to email)) /\
    decimal_value (Js.number_toString chatId) = Some chatId /\
    Forall (fun req => chat_of req = Some (Js.number_toString chatId)) rest.
Proof.
  intros _ Hto Hdom Htoken.
  assert (Hroute : Resolver.chatId_of (to email) = Some (Js.number_toString chatId)).
  { rewrite Hto. now apply userEmail_chatId. }
  destruct (onEmail_routed_run w env email _ t Hroute Htoken)
    as (summary & c & d1 & d2 & outs & _ & E & C1 & _ & _ & _ & C2 & _).
  exists c, (d1 ++ d2)%list. eexists. eexists.
  split; [exact E|]. split.
  - rewrite fetch_calls_app, C1, C2. reflexivity.
  - split; [apply sendMessage_request_method|]. split; [reflexivity|].
    split; [reflexivity|]. split; [apply number_toString_value|].
    eapply Forall_impl; [|apply attachment_calls_all_known].
    intros r. apply attachment_call_chat.
Qed.

(** The address of chat 7 under example.com. *)
Lemma issued_address_delivers_witness :
  exists c delta first rest,
    onEmail (Sample.world 200 Sample.silent) Sample.env
      (Sample.mail "tempmail+7@example.com" "Hello world" [Sample.photo]) []
    = (c, delta) /\
    fetch_calls delta = first :: rest /\
    chat_of first = Some "7".
Proof.
  destruct (issued_address_delivers (Sample.world 200 Sample.silent) Sample.env
              (Sample.mail "tempmail+7@example.com" "Hello world" [Sample.photo])
              7 [])
    as (c & delta & first & rest & E & Hc & _ & Hchat & _).
  - reflexivity.
  - reflexivity.
  - reflexivity.
  - discriminate.
  - exists c, delta, first, rest. split; [exact E|]. split; [exact Hc | exact Hchat].
Defined.

(** ** The webhook, case by case *)

(** X14. The handler never throws and answers by cases, whatever the
    request holds.  A request that is not a POST to /webhook/telegram
    gets 404 and nothing happens.  A webhook POST is answered 200 OK
    after no call or after one call that was answered, without console
    output; or 500 after one console line, when the body did not parse or
    a read of the update threw (no call was made) or when the one call was
    rejected.  A body that does not parse always gives 500 and no call. *)
Theorem webhook_replies (w : World) (env : Env) (request : Worker.Request)
  (t : list event) :
  exists reply delta,
    Worker.fetch w request env t = (Normal reply, (t ++ delta)%list) /\
    List.length (fetch_calls delta) <= 1 /\
    awaited delta = true /\
    ai_calls delta = [] /\
    (is_webhook request = false ->
     reply = Worker.mkReply "Not Found" 404 /\ delta = []) /\
    (is_webhook request = true ->
     (reply = Worker.mkReply "OK" 200 /\
      (delta = [] \/
       exists req r, delta = [FetchCall req; FetchSettled (Fulfilled r)])) \/
     (reply = Worker.mkReply "Internal Server Error" 500 /\
      exists e,
        delta = [ConsoleError ["Failed to process webhook:"; e]] \/
        exists req,
          delta = [FetchCall req; FetchSettled (Rejected e);
                   ConsoleError ["Failed to process webhook:"; e]])) /\
    (is_webhook request = true -> Worker.request_body request = None ->
     reply = Worker.mkReply "Internal Server Error" 500 /\ fetch_calls delta = []).
Proof.
  destruct (is_webhook request) eqn:Hw.
  - rewrite (fetch_of_process w env request t Hw).
    destruct (process_any w env request t) as (c & delta & E & Hnone & H).
    rewrite E. destruct H as [[-> [->|[e ->]]]|(req & _ & -> & ->)].
    + exists Worker.OK, []. split; [reflexivity|]. split; [simpl; lia|].
      split; [reflexivity|]. split; [reflexivity|]. split; [discriminate|]. split.
      * intros _. left. split; [reflexivity | now left].
      * intros _ Hb. destruct (Hnone Hb) as (_ & e & He). discriminate He.
    + exists failure_reply, [ConsoleError ["Failed to process webhook:"; e]].
      split; [now rewrite app_nil_r|]. split; [simpl; lia|].
      split; [reflexivity|]. split; [reflexivity|]. split; [discriminate|]. split.
      * intros _. right. split; [reflexivity|]. exists e. now left.
      * intros _ _. split; reflexivity.
    + destruct (telegram w (t ++ [FetchCall req])%list req) as [r|e] eqn:Eo.
      * exists Worker.OK, [FetchCall req; FetchSettled (Fulfilled r)].
        split; [reflexivity|]. split; [simpl; lia|].
        split; [reflexivity|]. split; [reflexivity|]. split; [discriminate|]. split.
        -- intros _. left. split; [reflexivity|]. right. now exists req, r.
        -- intros _ Hb. destruct (Hnone Hb) as (Hd & _). discriminate Hd.
      * exists failure_reply,
          [FetchCall req; FetchSettled (Rejected e);
           ConsoleError ["Failed to process webhook:"; e]].
        split; [now rewrite <- app_assoc|]. split; [simpl; lia|].
        split; [reflexivity|]. split; [reflexivity|]. split; [discriminate|]. split.
        -- intros _. right. split; [reflexivity|]. exists e. right. now exists req.
        -- intros _ Hb. destruct (Hnone Hb) as (Hd & _). discriminate Hd.
  - exists (Worker.mkReply "Not Found" 404), []. unfold Worker.fetch.
    unfold is_webhook in Hw. rewrite Hw. unfold ret. rewrite app_nil_r.
    split; [reflexivity|]. split; [simpl; lia|].
    split; [reflexivity|]. split; [reflexivity|]. split; [now split|].
    split; discriminate.
Qed.

(** A GET, a body that does not parse, and a callback query whose message
    has no chat. *)
Lemma webhook_replies_witness :
  (exists reply delta,
      Worker.fetch (Sample.world 200 Sample.silent)
        (Worker.mkWebRequest "GET" "/webhook/telegram" None) Sample.env []
      = (Normal reply, delta) /\
      reply = Worker.mkReply "Not Found" 404 /\ delta = []) /\
  (exists reply delta,
      Worker.fetch (Sample.world 200 Sample.silent)
        (Worker.mkWebRequest "POST" "/webhook/telegram" None) Sample.env []
      = (Normal reply, delta) /\
      reply = Worker.mkReply "Internal Server Error" 500 /\ fetch_calls delta = []) /\
  (exists reply delta,
      Worker.fetch (Sample.world 200 Sample.silent)
        (Sample.post
           (JObj [("callback_query",
                   JObj [("data", JStr "dismiss"); ("message", JObj [])])]))
        Sample.env []
      = (Normal reply, delta) /\
      List.length (fetch_calls delta) <= 1).
Proof.
  split; [|split].
  - destruct (webhook_replies (Sample.world 200 Sample.silent) Sample.env
                (Worker.mkWebRequest "GET" "/webhook/telegram" None) [])
      as (reply & delta & E & _ & _ & _ & H404 & _).
    exists reply, delta. split; [exact E | exact (H404 eq_refl)].
  - destruct (webhook_replies (Sample.world 200 Sample.silent) Sample.env
                (Worker.mkWebRequest "POST" "/webhook/telegram" None) [])
      as (reply & delta & E & _ & _ & _ & _ & _ & H500).
    exists reply, delta. split; [exact E | exact (H500 eq_refl eq_refl)].
  - destruct (webhook_replies (Sample.world 200 Sample.silent) Sample.env
                (Sample.post
                   (JObj [("callback_query",
                           JObj [("data", JStr "dismiss"); ("message", JObj [])])])) [])
      as (reply & delta & E & Hlen & _).
    exists reply, delta. split; [exact E | exact Hlen].
Defined.





(** ** What the calls carry *)

Section PayloadFacts.

Lemma includes_here (x rest : string) : includes (x ++ rest) x.
Proof. exists "", rest. reflexivity. Qed.

Lemma includes_later (a s x : string) : includes s x -> includes (a ++ s) x.
Proof.
  intros (p & q & ->). exists (a ++ p), q. now rewrite append_assoc.
Qed.

Lemma or_else_nonempty (a : option string) (b : string) :
  b <> "" -> or_else a b <> "".
Proof. intros Hb. destruct a as [[|c r]|]; simpl; [exact Hb | discriminate | exact Hb]. Qed.

Lemma or_else_cases (a : option string) (b : string) :
  (Js.truthy a = true -> Some (or_else a b) = a) /\
  (Js.truthy a = false -> or_else a b = b).
Proof. destruct a as [[|c r]|]; simpl; split; intros H; try discriminate; reflexivity. Qed.



(** The type a [File] keeps is printable and in lower case. *)
Lemma ascii_lower_unit_idem (c : ascii) :
  Js.ascii_lower_unit (Js.ascii_lower_unit c) = Js.ascii_lower_unit c.
Proof. destruct c as [[] [] [] [] [] [] [] []]; reflexivity. Qed.

Lemma ascii_lower_unit_printable (c : ascii) :
  Js.is_printable_unit c = true -> Js.is_printable_unit (Js.ascii_lower_unit c) = true.
Proof. destruct c as [[] [] [] [] [] [] [] []]; intros H; try reflexivity; discriminate H. Qed.

Lemma file_type_of_normal (type : string) :
  Js.map_units Js.ascii_lower_unit (Js.file_type_of type) = Js.file_type_of type /\
  Js.every_unit Js.is_printable_unit (Js.file_type_of type) = true.
Proof.
  unfold Js.file_type_of.
  destruct (Js.every_unit Js.is_printable_unit type) eqn:E; [|now split].
  induction type as [|c r IH]; [now split|].
  simpl in E. apply andb_true_iff in E as [Hc Hr]. destruct (IH Hr) as [I1 I2].
  simpl. now rewrite ascii_lower_unit_idem, I1, I2, ascii_lower_unit_printable.
Qed.

Lemma file_type_of_fixed (type : string) :
  Js.every_unit Js.is_printable_unit type = true ->
  Js.map_units Js.ascii_lower_unit type = type ->
  Js.file_type_of type = type.
Proof. unfold Js.file_type_of. now intros -> ->. Qed.

Lemma count_units_app (p : ascii -> bool) (a b : string) :
  count_units p (a ++ b) = count_units p a + count_units p b.
Proof. induction a as [|c a IH]; simpl; [reflexivity | rewrite IH; lia]. Qed.

Lemma count_units_absent (p : ascii -> bool) (s : string) :
  has_unit p s = false -> count_units p s = 0.
Proof.
  induction s as [|c r IH]; [reflexivity|]. simpl. intros H.
  apply orb_false_iff in H as [-> Hr]. now rewrite IH.
Qed.

Lemma escapeHtml_free (x : string) : has_unit is_markup_unit (escapeHtml x) = false.
Proof.
  induction x as [|c r IH]; [reflexivity|].
  now rewrite escapeHtml_cons, has_unit_app, entity_no_markup, IH.
Qed.

Lemma numeral_free (s : string) :
  all_units is_numeral_unit s = true -> has_unit is_markup_unit s = false.
Proof.
  induction s as [|c r IH]; [reflexivity|]. simpl. intros H.
  apply andb_true_iff in H as [Hc Hr]. rewrite (IH Hr), orb_false_r. clear - Hc.
  destruct c as [[] [] [] [] [] [] [] []]; try reflexivity; discriminate Hc.
Qed.

End PayloadFacts.

(** X17. generateEmailSummary returns normally whatever the model does,
    calls the model exactly once and makes no fetch; the text it sends is
    a prefix of its input of [min 2000 length] code units, the whole input
    when that has at most 2000. *)
Theorem generateEmailSummary_prompt (w : World) (text : string) (t : list event) :
  exists summary t',
    generateEmailSummary w text t = (Normal summary, t') /\
    ai_calls t' = (ai_calls t ++ [(summary_model, prompt_of text)])%list /\
    fetch_calls t' = fetch_calls t /\
    (exists rest, text = Js.substring0 2000 text ++ rest) /\
    String.length (Js.substring0 2000 text) = Nat.min 2000 (String.length text) /\
    (String.length text <= 2000 -> Js.substring0 2000 text = text).
Proof.
  rewrite generateEmailSummary_run.
  assert (Hlen : String.length (Js.substring0 2000 text)
                 = Nat.min 2000 (String.length text)).
  { destruct (Nat.le_ge_cases (String.length text) 2000) as [L|L].
    - rewrite substring0_all by exact L. lia.
    - rewrite substring0_length by exact L. lia. }
  destruct (model_reply w _ summary_model (prompt_of text)) as [[[[[|c r]|]]|]|e];
    eexists; eexists; (split; [reflexivity|]);
    rewrite !ai_calls_app, !fetch_calls_app; simpl; rewrite ?app_nil_r;
    (split; [reflexivity|]); (split; [reflexivity|]);
    (split; [apply substring0_prefix|]); (split; [exact Hlen | apply substring0_all]).
Qed.

(** X18. The document call of an attachment carries its bytes unchanged
    under a file name that is never empty: the declared one, or
    [unnamed_attachment.bin] when that is absent or empty.  The type of
    the file is what [File] keeps of the declared MIME type, or of
    [application/octet-stream] when none is declared: it is printable and
    in lower case, a type already so is kept as it is, and a type with a
    code unit outside U+0020..U+007E is dropped.  The caption shows the
    escaped file name, and the call addresses the given chat. *)
Theorem sendDocument_request_file (chatId : string) (attachment : Attachment)
  (token : string) :
  let req := sendDocument_request chatId attachment token in
  let declared := or_else (mimeType attachment) "application/octet-stream" in
  exists file caption,
    document_of req = Some file /\
    caption_of req = Some caption /\
    file_bits file = content attachment /\
    file_name file <> "" /\
    (Js.truthy (filename attachment) = true -> Some (file_name file) = filename attachment) /\
    (Js.truthy (filename attachment) = false -> file_name file = "unnamed_attachment.bin") /\
    (Js.truthy (mimeType attachment) = true -> Some declared = mimeType attachment) /\
    (Js.truthy (mimeType attachment) = false ->
     file_type file = "application/octet-stream") /\
    Js.map_units Js.ascii_lower_unit (file_type file) = file_type file /\
    Js.every_unit Js.is_printable_unit (file_type file) = true /\
    (Js.every_unit Js.is_printable_unit declared = true ->
     Js.map_units Js.ascii_lower_unit declared = declared ->
     file_type file = declared) /\
    (Js.every_unit Js.is_printable_unit declared = true ->
     file_type file = Js.map_units Js.ascii_lower_unit declared) /\
    (Js.every_unit Js.is_printable_unit declared = false -> file_type file = "") /\
    includes caption (escapeHtml (file_name file)) /\
    has_unit is_markup_unit (escapeHtml (file_name file)) = false /\
    chat_of req = Some chatId.
Proof.
  intros req declared. eexists. eexists.
  split; [reflexivity|]. split; [reflexivity|]. cbn [file_bits file_name file_type].
  fold declared.
  split; [reflexivity|].
  split; [apply or_else_nonempty; discriminate|].
  split; [apply or_else_cases|]. split; [apply or_else_cases|].
  split; [apply or_else_cases|].
  split.
  { intros H. unfold declared.
    rewrite (proj2 (or_else_cases (mimeType attachment) "application/octet-stream") H).
    reflexivity. }
  split; [apply file_type_of_normal|]. split; [apply file_type_of_normal|].
  split; [apply file_type_of_fixed|].
  split; [unfold Js.file_type_of; now intros ->|].
  split; [unfold Js.file_type_of; now intros ->|].
  split.
  - apply includes_later, includes_here.
  - split; [apply escapeHtml_free | reflexivity].
Qed.

(** A declared type in capitals, and one that holds a line feed. *)
Lemma sendDocument_request_file_witness :
  option_map file_type
    (document_of (sendDocument_request "42"
                    (mkAttachment (Some "a.pdf") (Some "Application/PDF") []) "123:ABC"))
  = Some "application/pdf" /\
  option_map file_type
    (document_of (sendDocument_request "42"
                    (mkAttachment (Some "a.pdf")
                       (Some ("text/plain" ++ nl)) []) "123:ABC"))
  = Some "".
Proof.
  split.
  - destruct (sendDocument_request_file "42"
                (mkAttachment (Some "a.pdf") (Some "Application/PDF") []) "123:ABC")
      as (file & caption & Hd & _ & _ & _ & _ & _ & _ & _ & _ & _ & _ & Hl & _).
    rewrite Hd. cbn [option_map]. now rewrite (Hl eq_refl).
  - destruct (sendDocument_request_file "42"
                (mkAttachment (Some "a.pdf") (Some ("text/plain" ++ nl)) []) "123:ABC")
      as (file & caption & Hd & _ & _ & _ & _ & _ & _ & _ & _ & _ & _ & _ & He & _).
    rewrite Hd. cbn [option_map]. now rewrite (He eq_refl).
Defined.



(** X20. Whatever the sender, the recipient, the subject, the summary and
    the body hold, the notification text has the markup of its template
    and no other: it holds exactly 48 of the characters [<], [>] and the
    two quotes, those of the template's own tags, because every field is
    shown escaped.  An absent or empty subject shows as [No Subject] and an
    empty snippet as [No readable text content.]. *)
Theorem notification_shows_fields (email : AgentEmail) (toAddress summary snip : string) :
  let text := messagePayload email toAddress summary snip in
  count_units is_markup_unit text = 48 /\
  includes text ("<code>" ++ escapeHtml (from email) ++ "</code>") /\
  includes text ("<code>" ++ escapeHtml toAddress ++ "</code>") /\
  includes text
    ("<i>" ++ escapeHtml (or_else (subject (parsed email)) "No Subject") ++ "</i>") /\
  includes text
    ("<b>Attachments:</b> " ++
     Js.number_toString (Z.of_nat (List.length (attachments_of (parsed email)))) ++ nl) /\
  includes text ("<i>" ++ escapeHtml summary ++ "</i>") /\
  includes text ("<pre>" ++ escapeHtml (or_else (Some snip) "No readable text content.")
                 ++ "</pre>") /\
  (Js.truthy (subject (parsed email)) = false ->
   includes text "<i>No Subject</i>") /\
  (snip = "" -> includes text "<pre>No readable text content.</pre>").
Proof.
  intros text. unfold text, messagePayload.
  assert (Hcount : attachmentCount (parsed email)
                   = List.length (attachments_of (parsed email))).
  { unfold attachmentCount, attachments_of. now destruct (attachments (parsed email)). }
  rewrite Hcount.
  split; [|split; [|split; [|split; [|split; [|split; [|split; [|split]]]]]]].
  - rewrite !count_units_app.
    rewrite !(count_units_absent _ _ (escapeHtml_free _)).
    rewrite (count_units_absent _ _
               (numeral_free _ (proj1 (number_toString_units _)))).
    reflexivity.
  - do 4 apply includes_later.
    exists "👤 <b>From:</b> ". eexists. rewrite !append_assoc. reflexivity.
  - do 8 apply includes_later.
    exists "🎯 <b>To:</b> ". eexists. rewrite !append_assoc. reflexivity.
  - do 12 apply includes_later.
    exists "📑 <b>Subject:</b> ". eexists. rewrite !append_assoc. reflexivity.
  - do 16 apply includes_later. exists "📎 ". eexists.
    rewrite !append_assoc. reflexivity.
  - do 23 apply includes_later. exists "". eexists.
    rewrite !append_assoc. reflexivity.
  - do 32 apply includes_later. exists "", "". now rewrite append_nil_r.
  - intros H. destruct (or_else_cases (subject (parsed email)) "No Subject") as [_ E].
    rewrite (E H). do 12 apply includes_later.
    exists "📑 <b>Subject:</b> ". eexists. reflexivity.
  - intros ->. do 32 apply includes_later. exists "", "". reflexivity.
Qed.
